(** * BVH viewer: parser, forward kinematics and height normalisation

    A shallow embedding of [src/main.js] (classes [BVHParser] and
    [BVHViewer]; the two other source files carry the same code verbatim),
    followed by the properties established about it.

    Modelling conventions.
    - A JavaScript number that holds a coordinate, an angle or a duration
      is a [num]: an exact real number or [NaN].  Rounding, overflow to
      the infinities and the sign of zero are not represented, so a
      statement about [num] is a statement about the arithmetic the code
      performs, up to floating-point rounding.
    - A JavaScript number that holds a count or an index is a [jsint]:
      an integer or NaN ([None]).
    - A value that may be [undefined] (an array read out of range, a
      missing token) is an [option].
    - A thrown exception is the [Err] outcome of a [result].
    - Rendering objects of three.js (meshes, lines, materials) are left
      out; a sphere is represented by its position only. *)

From Stdlib Require Import String Ascii List ZArith Lia Bool Reals Lra.
Import ListNotations.

Local Open Scope string_scope.
Local Open Scope list_scope.

(* ================================================================== *)
(** * JavaScript numbers *)

Inductive num : Type :=
| Fin (r : R)
| NaN.

Definition jsint : Type := option Z.

Definition nadd (a b : num) : num :=
  match a, b with Fin x, Fin y => Fin (x + y) | _, _ => NaN end.

Definition nsub (a b : num) : num :=
  match a, b with Fin x, Fin y => Fin (x - y) | _, _ => NaN end.

Definition nmul (a b : num) : num :=
  match a, b with Fin x, Fin y => Fin (x * y) | _, _ => NaN end.

Definition nneg (a : num) : num :=
  match a with Fin x => Fin (- x) | NaN => NaN end.

(** Division; a zero divisor, which gives an infinity or NaN in
    JavaScript, is outside the represented numbers and gives [NaN]. *)
Definition ndiv (a b : num) : num :=
  match a, b with
  | Fin x, Fin y => if Req_dec_T y 0 then NaN else Fin (x / y)
  | _, _ => NaN
  end.

(** [a < b] and [a <= b]; a comparison with NaN is false. *)
Definition nlt (a b : num) : bool :=
  match a, b with
  | Fin x, Fin y => if Rlt_dec x y then true else false
  | _, _ => false
  end.

Definition nle (a b : num) : bool :=
  match a, b with
  | Fin x, Fin y => if Rle_dec x y then true else false
  | _, _ => false
  end.

Definition nsin (a : num) : num :=
  match a with Fin x => Fin (sin x) | NaN => NaN end.

Definition ncos (a : num) : num :=
  match a with Fin x => Fin (cos x) | NaN => NaN end.

(** [a + b] on counts: NaN is absorbing. *)
Definition iadd (a b : jsint) : jsint :=
  match a, b with Some x, Some y => Some (x + y)%Z | _, _ => None end.

(* ================================================================== *)
(** * JavaScript strings and arrays

    Strings are byte strings; the white space of [trim] and of the
    regular expression class [\s] is the ASCII part of it. *)

Definition is_space (c : ascii) : bool :=
  match c with
  | "009"%char | "010"%char | "011"%char | "012"%char | "013"%char
  | " "%char => true
  | _ => false
  end.

Definition is_digit (c : ascii) : bool :=
  let n := nat_of_ascii c in (48 <=? n)%nat && (n <=? 57)%nat.

Definition digit_val (c : ascii) : Z := Z.of_nat (nat_of_ascii c) - 48.

Fixpoint trimStart (s : string) : string :=
  match s with
  | EmptyString => EmptyString
  | String c r => if is_space c then trimStart r else s
  end.

Fixpoint trimEnd (s : string) : string :=
  match s with
  | EmptyString => EmptyString
  | String c r =>
      match trimEnd r with
      | EmptyString => if is_space c then EmptyString else String c EmptyString
      | r' => String c r'
      end
  end.

Definition trim (s : string) : string := trimEnd (trimStart s).

(** [s.split('\n')]. *)
Fixpoint split_newline (s : string) : list string :=
  match s with
  | EmptyString => [EmptyString]
  | String c r =>
      if Ascii.eqb c "010"%char then EmptyString :: split_newline r
      else match split_newline r with
           | h :: t => String c h :: t
           | [] => [String c EmptyString]
           end
  end.

(** [s.split(/\s+/)]: [inrun] tells that the previous character was
    white space, so that a run of white space separates once. *)
Fixpoint split_ws_from (inrun : bool) (s : string) : list string :=
  match s with
  | EmptyString => [EmptyString]
  | String c r =>
      if is_space c then
        if inrun then split_ws_from true r
        else EmptyString :: split_ws_from true r
      else match split_ws_from false r with
           | h :: t => String c h :: t
           | [] => [String c EmptyString]
           end
  end.

Definition split_ws (s : string) : list string := split_ws_from false s.

(** [s.startsWith(p)]. *)
Definition startsWith (s p : string) : bool := String.prefix p s.

(** The longest prefix of [s] whose characters satisfy [p], and the rest. *)
Fixpoint span (p : ascii -> bool) (s : string) : string * string :=
  match s with
  | EmptyString => (EmptyString, EmptyString)
  | String c r =>
      if p c then let (a, b) := span p r in (String c a, b)
      else (EmptyString, s)
  end.

Fixpoint drop (n : nat) (s : string) : string :=
  match n, s with
  | O, _ => s
  | S n', EmptyString => EmptyString
  | S n', String _ r => drop n' r
  end.

(** The value of a run of decimal digits, most significant first. *)
Fixpoint digits_from (acc : Z) (s : string) : Z :=
  match s with
  | EmptyString => acc
  | String c r => digits_from (acc * 10 + digit_val c) r
  end.

Definition digits (s : string) : Z := digits_from 0 s.

(** An optional sign: [true] for a minus, and the rest. *)
Definition sign (s : string) : bool * string :=
  match s with
  | String "-"%char r => (true, r)
  | String "+"%char r => (false, r)
  | _ => (false, s)
  end.

Definition is_hex_digit (c : ascii) : bool :=
  let n := nat_of_ascii c in
  is_digit c || ((65 <=? n)%nat && (n <=? 70)%nat)
             || ((97 <=? n)%nat && (n <=? 102)%nat).

Definition hex_val (c : ascii) : Z :=
  let n := nat_of_ascii c in
  if is_digit c then digit_val c
  else if (n <=? 70)%nat then Z.of_nat n - 55 else Z.of_nat n - 87.

Fixpoint hex_from (acc : Z) (s : string) : Z :=
  match s with
  | EmptyString => acc
  | String c r => hex_from (acc * 16 + hex_val c) r
  end.

(** [parseInt(s)] with no radix argument. *)
Definition parseInt (s : string) : jsint :=
  let (neg, s1) := sign (trimStart s) in
  let sg := if neg then (-1)%Z else 1%Z in
  if startsWith s1 "0x" || startsWith s1 "0X" then
    let (ds, _) := span is_hex_digit (drop 2 s1) in
    match ds with
    | EmptyString => None
    | _ => Some (sg * hex_from 0 ds)%Z
    end
  else
    let (ds, _) := span is_digit s1 in
    match ds with
    | EmptyString => None
    | _ => Some (sg * digits ds)%Z
    end.

(** The exponent part of a decimal literal: [e] or [E], an optional sign
    and at least one digit; anything else is no exponent. *)
Definition exponent (s : string) : Z :=
  match s with
  | String c r =>
      if Ascii.eqb c "e"%char || Ascii.eqb c "E"%char then
        let (neg, r1) := sign r in
        let (ds, _) := span is_digit r1 in
        match ds with
        | EmptyString => 0%Z
        | _ => if neg then (- digits ds)%Z else digits ds
        end
      else 0%Z
  | EmptyString => 0%Z
  end.

(** The number [m * 10 ^ e]. *)
Definition decimal (m e : Z) : num :=
  if (0 <=? e)%Z then Fin (IZR (m * 10 ^ e))
  else Fin (IZR m / IZR (10 ^ (- e))).

(** [parseFloat(s)]: the longest prefix of the trimmed string that is a
    decimal literal.  The literal [Infinity] denotes no represented
    number and reads as [NaN] here. *)
Definition parseFloat (s : string) : num :=
  let (neg, s1) := sign (trimStart s) in
  let (ip, s2) := span is_digit s1 in
  let (fp, s3) :=
    match s2 with
    | String "."%char r => span is_digit r
    | _ => (EmptyString, s2)
    end in
  match (ip ++ fp)%string with
  | EmptyString => NaN
  | ds =>
      let m := if neg then (- digits ds)%Z else digits ds in
      decimal m (exponent s3 - Z.of_nat (String.length fp))
  end.

(** [String(v)] for a string or [undefined]. *)
Definition toStr (v : option string) : string :=
  match v with Some s => s | None => "undefined" end.

(** [a.slice(s, e)] with the relative indices of ECMAScript: a negative
    index counts from the end, and a NaN end is 0. *)
Definition rel_index (len i : Z) : Z :=
  if (i <? 0)%Z then Z.max (len + i) 0 else Z.min i len.

Definition slice {A : Type} (l : list A) (s : Z) (e : jsint) : list A :=
  let len := Z.of_nat (List.length l) in
  let k := rel_index len s in
  let f := rel_index len (match e with Some z => z | None => 0%Z end) in
  firstn (Z.to_nat (f - k)) (skipn (Z.to_nat k) l).

(** [a.findIndex(x => x === v)]; [None] stands for -1. *)
Fixpoint findIndex (v : string) (l : list string) : option nat :=
  match l with
  | [] => None
  | x :: r =>
      if String.eqb x v then Some O
      else match findIndex v r with Some i => Some (S i) | None => None end
  end.

(** A match of the regular expression [lit\s*(cls+)] at the start of
    [s]: the captured group. *)
Definition match_here (lit : string) (cls : ascii -> bool) (s : string)
  : option string :=
  if startsWith s lit then
    let (cap, _) := span cls (trimStart (drop (String.length lit) s)) in
    match cap with
    | EmptyString => None
    | _ => Some cap
    end
  else None.

(** [s.match(/lit\s*(cls+)/)]: the leftmost match, searched from every
    position; the captured group, or [None] for no match. *)
Fixpoint regex_search (lit : string) (cls : ascii -> bool) (s : string)
  : option string :=
  match match_here lit cls s with
  | Some cap => Some cap
  | None =>
      match s with
      | EmptyString => None
      | String _ r => regex_search lit cls r
      end
  end.

Definition is_digit_or_dot (c : ascii) : bool :=
  is_digit c || Ascii.eqb c "."%char.

(** [/Frames:\s*(\d+)/] and [/Frame Time:\s*([\d.]+)/]. *)
Definition match_frames (s : string) : option string :=
  regex_search "Frames:" is_digit s.

Definition match_frame_time (s : string) : option string :=
  regex_search "Frame Time:" is_digit_or_dot s.

(* ================================================================== *)
(** * The part of three.js the viewer computes with

    [Vector3], [Matrix4] and [MathUtils.degToRad], written from the
    library's definitions: a matrix is given by its sixteen entries in
    row-major order, as the arguments of [Matrix4.set] are. *)

Module THREE.

Record Vector3 : Type := mkVector3 { x : num; y : num; z : num }.

Record Matrix4 : Type := set {
  n11 : num; n12 : num; n13 : num; n14 : num;
  n21 : num; n22 : num; n23 : num; n24 : num;
  n31 : num; n32 : num; n33 : num; n34 : num;
  n41 : num; n42 : num; n43 : num; n44 : num }.

Definition n0 : num := Fin 0.
Definition n1 : num := Fin 1.

(** [new Matrix4()]. *)
Definition identity : Matrix4 :=
  set n1 n0 n0 n0
      n0 n1 n0 n0
      n0 n0 n1 n0
      n0 n0 n0 n1.

Definition makeTranslation (tx ty tz : num) : Matrix4 :=
  set n1 n0 n0 tx
      n0 n1 n0 ty
      n0 n0 n1 tz
      n0 n0 n0 n1.

Definition makeRotationX (theta : num) : Matrix4 :=
  let c := ncos theta in
  let s := nsin theta in
  set n1 n0 n0 n0
      n0 c (nneg s) n0
      n0 s c n0
      n0 n0 n0 n1.

Definition makeRotationY (theta : num) : Matrix4 :=
  let c := ncos theta in
  let s := nsin theta in
  set c n0 s n0
      n0 n1 n0 n0
      (nneg s) n0 c n0
      n0 n0 n0 n1.

Definition makeRotationZ (theta : num) : Matrix4 :=
  let c := ncos theta in
  let s := nsin theta in
  set c (nneg s) n0 n0
      s c n0 n0
      n0 n0 n1 n0
      n0 n0 n0 n1.

(** The sum of four products, as one entry of a product is computed. *)
Definition dot4 (a1 b1 a2 b2 a3 b3 a4 b4 : num) : num :=
  nadd (nadd (nadd (nmul a1 b1) (nmul a2 b2)) (nmul a3 b3)) (nmul a4 b4).

(** [multiplyMatrices(a, b)]: the product [a * b]; [m.multiply(b)] is
    [multiplyMatrices m b]. *)
Definition multiplyMatrices (a b : Matrix4) : Matrix4 :=
  let row (a1 a2 a3 a4 : num) (c : Matrix4 -> num * num * num * num) :=
    let '(b1, b2, b3, b4) := c b in dot4 a1 b1 a2 b2 a3 b3 a4 b4 in
  let c1 m := (n11 m, n21 m, n31 m, n41 m) in
  let c2 m := (n12 m, n22 m, n32 m, n42 m) in
  let c3 m := (n13 m, n23 m, n33 m, n43 m) in
  let c4 m := (n14 m, n24 m, n34 m, n44 m) in
  set (row (n11 a) (n12 a) (n13 a) (n14 a) c1)
      (row (n11 a) (n12 a) (n13 a) (n14 a) c2)
      (row (n11 a) (n12 a) (n13 a) (n14 a) c3)
      (row (n11 a) (n12 a) (n13 a) (n14 a) c4)
      (row (n21 a) (n22 a) (n23 a) (n24 a) c1)
      (row (n21 a) (n22 a) (n23 a) (n24 a) c2)
      (row (n21 a) (n22 a) (n23 a) (n24 a) c3)
      (row (n21 a) (n22 a) (n23 a) (n24 a) c4)
      (row (n31 a) (n32 a) (n33 a) (n34 a) c1)
      (row (n31 a) (n32 a) (n33 a) (n34 a) c2)
      (row (n31 a) (n32 a) (n33 a) (n34 a) c3)
      (row (n31 a) (n32 a) (n33 a) (n34 a) c4)
      (row (n41 a) (n42 a) (n43 a) (n44 a) c1)
      (row (n41 a) (n42 a) (n43 a) (n44 a) c2)
      (row (n41 a) (n42 a) (n43 a) (n44 a) c3)
      (row (n41 a) (n42 a) (n43 a) (n44 a) c4).

(** [new Vector3().setFromMatrixPosition(m)]: the translation column. *)
Definition setFromMatrixPosition (m : Matrix4) : Vector3 :=
  mkVector3 (n14 m) (n24 m) (n34 m).

(** [MathUtils.degToRad(d)]: [d * (Math.PI / 180)]. *)
Definition degToRad (d : num) : num := nmul d (Fin (PI / 180)).

End THREE.

(* ================================================================== *)
(** * Outcomes *)

Inductive error : Type :=
| MissingHierarchy        (* 'Invalid BVH file: missing HIERARCHY section' *)
| UnexpectedEndOfFile     (* 'Unexpected end of file while parsing hierarchy' *)
| UnexpectedEndAfterNode  (* 'Unexpected end of file after <type> <name>' *)
| ExpectedBrace           (* 'Expected { after <type> <name>' *)
| MissingMotion           (* 'Invalid BVH file: missing MOTION section' *)
| EndOfFileInMotion       (* 'Unexpected end of file in MOTION section' *)
| InvalidFramesLine       (* 'missing or invalid Frames line' *)
| EndOfFileAfterFrames    (* 'Unexpected end of file after Frames line' *)
| InvalidFrameTimeLine    (* 'missing or invalid Frame Time line' *)
| TypeError               (* a property read on null or undefined *)
| OutOfFuel.              (* no JavaScript error: the recursion bound of
                             the model ran out; [parseNode_total] shows
                             that it never does *)

Inductive result (A : Type) : Type :=
| OK (a : A)
| Err (e : error).

Arguments OK {A} a.
Arguments Err {A} e.

Definition bind {A B : Type} (r : result A) (k : A -> result B) : result B :=
  match r with OK a => k a | Err e => Err e end.

Notation "'do' p <- r ; k" := (bind r (fun p => k))
  (at level 10, p pattern, r at level 100, k at level 200).

(* ================================================================== *)
(** * BVHParser *)

(** A joint as [parseNode] builds it.  [name] and [type] are tokens of
    the declaration line, hence possibly [undefined]; [offset] is the
    three-element array. *)
#[warnings="-register-all"]
Inductive node : Type := mkNode {
  name : option string;
  type : option string;
  offset : num * num * num;
  channels : list string;
  children : list node }.

Definition set_offset (nd : node) (o : num * num * num) : node :=
  mkNode (name nd) (type nd) o (channels nd) (children nd).

Definition set_channels (nd : node) (c : list string) : node :=
  mkNode (name nd) (type nd) (offset nd) c (children nd).

(** [node.children.push(child)]. *)
Definition push_child (nd : node) (child : node) : node :=
  mkNode (name nd) (type nd) (offset nd) (channels nd) (children nd ++ [child]).

(** [parts[1] || 'End Site']. *)
Definition or_End_Site (v : option string) : option string :=
  match v with
  | Some EmptyString | None => Some "End Site"
  | Some s => Some s
  end.

(** [parseFloat(parts[i])]. *)
Definition parseFloat_at (parts : list string) (i : nat) : num :=
  parseFloat (toStr (nth_error parts i)).

(** [parseNode] and the [while] loop of its body ([parseBody]).  The
    closure variable [index] is passed in and returned; [fuel] bounds the
    recursion. *)
Fixpoint parseNode (fuel : nat) (lines : list string) (isRoot : bool)
    (index : nat) {struct fuel} : result (node * jsint * nat) :=
  match fuel with
  | O => Err OutOfFuel
  | S fuel' =>
      match nth_error lines index with
      | None => Err UnexpectedEndOfFile
      | Some line =>
          let parts := split_ws line in
          let nodeType := nth_error parts 0 in
          let nodeName :=
            if isRoot then nth_error parts 1
            else or_End_Site (nth_error parts 1) in
          let index := S index in
          match nth_error lines index with
          | None => Err UnexpectedEndAfterNode
          | Some brace =>
              if negb (String.eqb brace "{") then Err ExpectedBrace
              else
                let index := S index in
                let nd := mkNode nodeName nodeType (Fin 0, Fin 0, Fin 0) [] [] in
                do r <- parseBody fuel' lines index nd (Some 0%Z);
                let '(nd, totalChannels, index) := r in
                let index :=
                  match nth_error lines index with
                  | Some l => if String.eqb l "}" then S index else index
                  | None => index
                  end in
                OK (nd, totalChannels, index)
          end
      end
  end

with parseBody (fuel : nat) (lines : list string) (index : nat)
    (nd : node) (totalChannels : jsint) {struct fuel}
    : result (node * jsint * nat) :=
  match fuel with
  | O => Err OutOfFuel
  | S fuel' =>
      match nth_error lines index with
      | None => OK (nd, totalChannels, index)
      | Some currentLine =>
          if String.eqb currentLine "}" then OK (nd, totalChannels, index)
          else if startsWith currentLine "OFFSET" then
            let offsetParts := split_ws currentLine in
            parseBody fuel' lines (S index)
              (set_offset nd (parseFloat_at offsetParts 1,
                              parseFloat_at offsetParts 2,
                              parseFloat_at offsetParts 3))
              totalChannels
          else if startsWith currentLine "CHANNELS" then
            let channelParts := split_ws currentLine in
            let numChannels := parseInt (toStr (nth_error channelParts 1)) in
            parseBody fuel' lines (S index)
              (set_channels nd
                 (slice channelParts 2 (iadd (Some 2%Z) numChannels)))
              (iadd totalChannels numChannels)
          else if startsWith currentLine "JOINT"
                  || startsWith currentLine "End Site" then
            do r <- parseNode fuel' lines false index;
            let '(child, childChannels, index) := r in
            parseBody fuel' lines index (push_child nd child)
              (iadd totalChannels childChannels)
          else parseBody fuel' lines (S index) nd totalChannels
      end
  end.

Record hierarchy : Type := mkHierarchy {
  h_node : node;
  h_totalChannels : jsint;
  endIndex : nat }.

(** Enough fuel for any input: every loop turn and every call consumes
    at least one line. *)
Definition hierarchy_fuel (lines : list string) : nat :=
  2 * List.length lines + 2.

Definition parseHierarchy (lines : list string) (startIndex : nat)
  : result hierarchy :=
  do r <- parseNode (hierarchy_fuel lines) lines true startIndex;
  let '(nd, totalChannels, index) := r in
  OK (mkHierarchy nd totalChannels index).

Record MotionData : Type := mkMotionData {
  frameCount : nat;
  frameTime : num;
  frames : list (list num) }.

(** [i < frameCount] for a count that may be NaN. *)
Definition below (i : Z) (n : jsint) : bool :=
  match n with Some k => (i <? k)%Z | None => false end.

(** The [for] loop of [parseMotion] over the lines from [index] on
    ([rest]): it stops at the declared count or at the end of the lines,
    whichever comes first.  The warning inside the loop is unreachable. *)
Fixpoint readFrames (declared : jsint) (i : Z) (rest : list string)
  : list (list num) :=
  match rest with
  | [] => []
  | line :: rest' =>
      if below i declared then
        map parseFloat (split_ws line) :: readFrames declared (i + 1) rest'
      else []
  end.

Definition parseMotion (lines : list string) (startIndex : nat)
  : result MotionData :=
  let index := startIndex in
  match nth_error lines index with
  | None => Err EndOfFileInMotion
  | Some framesLine =>
      match match_frames framesLine with
      | None => Err InvalidFramesLine
      | Some framesMatch =>
          let declared := parseInt framesMatch in
          let index := S index in
          match nth_error lines index with
          | None => Err EndOfFileAfterFrames
          | Some frameTimeLine =>
              match match_frame_time frameTimeLine with
              | None => Err InvalidFrameTimeLine
              | Some frameTimeMatch =>
                  let frameTime := parseFloat frameTimeMatch in
                  let index := S index in
                  let frames := readFrames declared 0 (skipn index lines) in
                  OK (mkMotionData (List.length frames) frameTime frames)
              end
          end
      end
  end.

Record parsed : Type := mkParsed {
  p_skeleton : node;
  p_motionData : MotionData;
  p_totalChannels : jsint }.

(** [content.split('\n').map(line => line.trim()).filter(line => line)]. *)
Definition content_lines (content : string) : list string :=
  filter (fun line => negb (String.eqb line EmptyString))
         (map trim (split_newline content)).

Definition parse (content : string) : result parsed :=
  let lines := content_lines content in
  match nth_error lines 0 with
  | Some "HIERARCHY" =>
      do skeleton <- parseHierarchy lines 1;
      match findIndex "MOTION" lines with
      | None => Err MissingMotion
      | Some motionIndex =>
          do motionData <- parseMotion lines (motionIndex + 1);
          OK (mkParsed (h_node skeleton) motionData (h_totalChannels skeleton))
      end
  | _ => Err MissingHierarchy
  end.

(* ================================================================== *)
(** * BVHViewer *)

(** A JavaScript [Map] whose keys are strings or [undefined]: the
    entries in insertion order.  [Map_set] on a key that is present
    replaces the value and keeps the entry's place. *)
Definition key : Type := option string.

Definition key_eqb (a b : key) : bool :=
  match a, b with
  | Some s, Some t => String.eqb s t
  | None, None => true
  | _, _ => false
  end.

Definition Map (V : Type) : Type := list (key * V).

Fixpoint Map_get {V : Type} (m : Map V) (k : key) : option V :=
  match m with
  | [] => None
  | (k', v) :: r => if key_eqb k' k then Some v else Map_get r k
  end.

Fixpoint Map_set {V : Type} (m : Map V) (k : key) (v : V) : Map V :=
  match m with
  | [] => [(k, v)]
  | (k', v') :: r =>
      if key_eqb k' k then (k', v) :: r else (k', v') :: Map_set r k v
  end.

(** An entry of [this.bones]; [sphere] is the position of its sphere. *)
Record bone : Type := mkBone {
  sphere : THREE.Vector3;
  bone_node : node;
  bone_channels : list string;
  position : THREE.Vector3 }.

(** [bone.sphere.position.copy(pos)]. *)
Definition move_sphere (b : bone) (pos : THREE.Vector3) : bone :=
  mkBone pos (bone_node b) (bone_channels b) (position b).

(** [bones.get(k)], and when it is there, its sphere moved to [pos]. *)
Definition move_bone (bones : Map bone) (k : key) (pos : THREE.Vector3)
  : Map bone :=
  match Map_get bones k with
  | Some b => Map_set bones k (move_sphere b pos)
  | None => bones
  end.

(** [new Vector3(p.x + o[0], p.y + o[1], p.z + o[2])]. *)
Definition add_offset (p : THREE.Vector3) (o : num * num * num)
  : THREE.Vector3 :=
  let '(o0, o1, o2) := o in
  THREE.mkVector3 (nadd (THREE.x p) o0) (nadd (THREE.y p) o1)
                  (nadd (THREE.z p) o2).

Definition is_End_Site (nd : node) : bool :=
  match type nd with Some t => String.eqb t "End Site" | None => false end.

(** The template literal [`EndSite_${name}`]. *)
Definition endSiteName (nm : option string) : key :=
  Some ("EndSite_" ++ toStr nm)%string.

Fixpoint createBonesFromBVH (nd : node) (parentNode : option node)
    (parentPos : THREE.Vector3) (bones : Map bone) {struct nd}
    : result (Map bone) :=
  match nd with
  | mkNode nm ty off chs kids =>
      let pos := add_offset parentPos off in
      do bones <-
        (if (0 <? List.length chs)%nat && negb (is_End_Site nd) then
           OK (Map_set bones nm (mkBone pos nd chs pos))
         else if is_End_Site nd then
           match parentNode with
           | None => Err TypeError
           | Some p =>
               OK (Map_set bones (endSiteName (name p)) (mkBone pos nd [] pos))
           end
         else OK bones);
      (fix each (cs : list node) (bones : Map bone) : result (Map bone) :=
         match cs with
         | [] => OK bones
         | child :: cs' =>
             do bones <- createBonesFromBVH child (Some nd) pos bones;
             each cs' bones
         end) kids bones
  end.

(** [frameData[i]] used as a number: a read past the end is [undefined],
    which every use below turns into NaN. *)
Definition read (frameData : list num) (i : nat) : num :=
  match nth_error frameData i with Some v => v | None => NaN end.

(** The six [if] statements of the channel loop, for one channel. *)
Definition apply_channel (channel : string) (value : num)
    (local : THREE.Matrix4) : THREE.Matrix4 :=
  let n0 := THREE.n0 in
  let local := if String.eqb channel "Xposition"
    then THREE.multiplyMatrices local (THREE.makeTranslation value n0 n0)
    else local in
  let local := if String.eqb channel "Yposition"
    then THREE.multiplyMatrices local (THREE.makeTranslation n0 value n0)
    else local in
  let local := if String.eqb channel "Zposition"
    then THREE.multiplyMatrices local (THREE.makeTranslation n0 n0 value)
    else local in
  let local := if String.eqb channel "Xrotation"
    then THREE.multiplyMatrices local
           (THREE.makeRotationX (THREE.degToRad value))
    else local in
  let local := if String.eqb channel "Yrotation"
    then THREE.multiplyMatrices local
           (THREE.makeRotationY (THREE.degToRad value))
    else local in
  let local := if String.eqb channel "Zrotation"
    then THREE.multiplyMatrices local
           (THREE.makeRotationZ (THREE.degToRad value))
    else local in
  local.

(** The channel loop of [updateBone]: [frameData[channelIndex++]] for
    each channel in turn.  [frameData] is [None] when
    [frames[frameIndex]] is [undefined]; indexing it throws. *)
Fixpoint apply_channels (chs : list string) (frameData : option (list num))
    (channelIndex : nat) (local : THREE.Matrix4)
    : result (THREE.Matrix4 * nat) :=
  match chs with
  | [] => OK (local, channelIndex)
  | channel :: rest =>
      match frameData with
      | None => Err TypeError
      | Some fd =>
          let value := read fd channelIndex in
          apply_channels rest frameData (S channelIndex)
            (apply_channel channel value local)
      end
  end.

(** What one call of [updateFrame] mutates during the traversal. *)
Record frame_state : Type := mkState {
  channelIndex : nat;
  st_bones : Map bone;
  endSiteUpdates : Map THREE.Vector3 }.

(** The first [forEach] over the children: the End Site positions. *)
Definition record_end_sites (nm : option string) (pos : THREE.Vector3)
    (kids : list node) (updates : Map THREE.Vector3) : Map THREE.Vector3 :=
  fold_left
    (fun m child =>
       if is_End_Site child
       then Map_set m (endSiteName nm) (add_offset pos (offset child))
       else m)
    kids updates.

Definition local_offset (off : num * num * num) : THREE.Matrix4 :=
  let '(o0, o1, o2) := off in THREE.makeTranslation o0 o1 o2.

Fixpoint updateBone (nd : node) (parentTransform : THREE.Matrix4)
    (frameData : option (list num)) (st : frame_state) {struct nd}
    : result frame_state :=
  match nd with
  | mkNode nm ty off chs kids =>
      let local := local_offset off in
      do r <- apply_channels chs frameData (channelIndex st) local;
      let '(local, idx) := r in
      let world := THREE.multiplyMatrices parentTransform local in
      let pos := THREE.setFromMatrixPosition world in
      let bones := move_bone (st_bones st) nm pos in
      let updates := record_end_sites nm pos kids (endSiteUpdates st) in
      (fix each (cs : list node) (st : frame_state) : result frame_state :=
         match cs with
         | [] => OK st
         | child :: cs' =>
             do st <- updateBone child world frameData st;
             each cs' st
         end) kids (mkState idx bones updates)
  end.

(** The final [endSiteUpdates.forEach]. *)
Definition apply_end_sites (updates : Map THREE.Vector3) (bones : Map bone)
  : Map bone :=
  fold_left (fun b kv => move_bone b (fst kv) (snd kv)) updates bones.

(** The fields of the viewer that the core reads and writes.
    [group_scale] and [group_position] are [skeletonGroup.scale] (set
    uniformly) and [skeletonGroup.position]. *)
Record viewer : Type := mkViewer {
  skeleton : option node;
  motionData : option MotionData;
  totalChannels : jsint;
  bones : Map bone;
  skeletonScale : option num;
  group_scale : num;
  group_position : THREE.Vector3 }.

Definition with_bones (v : viewer) (b : Map bone) : viewer :=
  mkViewer (skeleton v) (motionData v) (totalChannels v) b
           (skeletonScale v) (group_scale v) (group_position v).

(** [frameIndex >= n] for an index that may be NaN. *)
Definition at_least (i : jsint) (n : nat) : bool :=
  match i with Some k => (Z.of_nat n <=? k)%Z | None => false end.

(** [frames[frameIndex]]: [undefined] unless the index is an integer
    within the array. *)
Definition frame_at (frames : list (list num)) (i : jsint)
  : option (list num) :=
  match i with
  | Some k => if (k <? 0)%Z then None else nth_error frames (Z.to_nat k)
  | None => None
  end.

Definition updateFrame (frameIndex : jsint) (v : viewer) : result viewer :=
  match motionData v with
  | None => OK v
  | Some md =>
      if at_least frameIndex (List.length (frames md)) then OK v
      else
        let frameData := frame_at (frames md) frameIndex in
        match skeleton v with
        | None => Err TypeError
        | Some root =>
            do st <- updateBone root THREE.identity frameData
                       (mkState 0 (bones v) []);
            OK (with_bones v (apply_end_sites (endSiteUpdates st) (st_bones st)))
        end
  end.


Definition footBoneNames : list string :=
  ["LeftFoot"; "RightFoot"; "LeftToes"; "RightToes";
   "L_Foot"; "R_Foot"; "L_Toe"; "R_Toe";
   "left_foot"; "right_foot"; "left_toe"; "right_toe";
   "LeftUpperLeg"; "RightUpperLeg"; "LeftLowerLeg"; "RightLowerLeg"].

Definition footEndSiteNames : list string :=
  ["EndSite_LeftFoot"; "EndSite_RightFoot"; "EndSite_LeftToes";
   "EndSite_RightToes";
   "EndSite_L_Foot"; "EndSite_R_Foot"; "EndSite_L_Toe"; "EndSite_R_Toe";
   "EndSite_left_foot"; "EndSite_right_foot"; "EndSite_left_toe";
   "EndSite_right_toe"].

(** [lowestY] and [lowestPosition] together: [None] is the initial
    pair of [Infinity] and [null]. *)
Definition lowest : Type := option THREE.Vector3.

(** [bone.sphere.position.y < lowestY], and the two assignments. *)
Definition lower (acc : lowest) (b : bone) : lowest :=
  let y := THREE.y (sphere b) in
  match acc with
  | None => match y with Fin _ => Some (sphere b) | NaN => None end
  | Some p => if nlt y (THREE.y p) then Some (sphere b) else acc
  end.

Definition lower_named (bones : Map bone) (acc : lowest) (nm : string)
  : lowest :=
  match Map_get bones (Some nm) with
  | Some b => lower acc b
  | None => acc
  end.

Definition findLowestFootPosition (bones : Map bone) : lowest :=
  let acc := fold_left (lower_named bones) footBoneNames None in
  let acc := fold_left (lower_named bones) footEndSiteNames acc in
  match acc with
  | Some p => Some p
  | None => fold_left (fun a kv => lower a (snd kv)) bones None
  end.





(** [loadBVHFile] up to [createSkeleton]: the viewer holding what
    [parse] returned. *)
Definition loaded (p : parsed) : viewer :=
  mkViewer (Some (p_skeleton p)) (Some (p_motionData p)) (p_totalChannels p)
           [] None (Fin 1) (THREE.mkVector3 (Fin 0) (Fin 0) (Fin 0)).


(* ================================================================== *)
(** * Hierarchy text of the documented form

    The lines of a hierarchy laid out as the input format documents it:
    a joint is its declaration line, an opening brace, an OFFSET line, a
    CHANNELS line, its children and a closing brace; an End Site is its
    declaration line, a brace, an OFFSET line and a closing brace.  This
    is the domain of the statements about valid input; the parser itself
    accepts more. *)

#[warnings="-register-all"]
Inductive hier : Type :=
| HJoint (header offsetLine channelsLine : string) (kids : list hier)
| HEndSite (offsetLine : string).

Fixpoint render (t : hier) : list string :=
  match t with
  | HJoint header offsetLine channelsLine kids =>
      header :: "{" :: offsetLine :: channelsLine
        :: flat_map render kids ++ ["}"]
  | HEndSite offsetLine => ["End Site"; "{"; offsetLine; "}"]
  end.

(** A declaration line [kw <name>]. *)
Definition valid_header (kw line : string) : bool :=
  startsWith line kw &&
  match split_ws line with
  | [k; n] => String.eqb k kw && negb (String.eqb n EmptyString)
  | _ => false
  end.

Definition valid_offset (line : string) : bool := startsWith line "OFFSET".

(** A line [CHANNELS n c1 ... cn]: the declared count is the number of
    channel names that follow it. *)
Definition valid_channels (line : string) : bool :=
  startsWith line "CHANNELS" &&
  let parts := split_ws line in
  match parseInt (toStr (nth_error parts 1)) with
  | Some n => (2 <=? List.length parts)%nat
              && (n =? Z.of_nat (List.length parts - 2))%Z
  | None => false
  end.

Fixpoint valid (kw : string) (t : hier) : bool :=
  match t with
  | HJoint header offsetLine channelsLine kids =>
      valid_header kw header && valid_offset offsetLine
      && valid_channels channelsLine && forallb (valid "JOINT") kids
  | HEndSite offsetLine => valid_offset offsetLine
  end.

Definition valid_root (t : hier) : bool :=
  match t with
  | HJoint _ _ _ _ => valid "ROOT" t
  | HEndSite _ => false
  end.

Definition offset_of (line : string) : num * num * num :=
  let parts := split_ws line in
  (parseFloat_at parts 1, parseFloat_at parts 2, parseFloat_at parts 3).

(** The joint tree that a hierarchy of the documented form denotes. *)
Fixpoint expected (isRoot : bool) (t : hier) : node :=
  match t with
  | HJoint header offsetLine channelsLine kids =>
      let parts := split_ws header in
      mkNode (if isRoot then nth_error parts 1
              else or_End_Site (nth_error parts 1))
             (nth_error parts 0)
             (offset_of offsetLine)
             (skipn 2 (split_ws channelsLine))
             (map (expected false) kids)
  | HEndSite offsetLine =>
      mkNode (Some "Site") (Some "End") (offset_of offsetLine) [] []
  end.

(** The sum of [channels.length] over the joints of a tree that satisfy
    [keep]. *)
Fixpoint channel_sum (keep : node -> bool) (nd : node) : nat :=
  (if keep nd then List.length (channels nd) else 0)
  + list_sum (map (channel_sum keep) (children nd)).

Definition all_joints (nd : node) : bool := true.

(** A joint that is no End Site, by the test the viewer applies
    ([type !== 'End Site']) and by the type token the parser stores for
    an End Site block ([End]). *)
Definition not_End_Site (nd : node) : bool := negb (is_End_Site nd).

Definition not_End_block (nd : node) : bool :=
  match type nd with Some t => negb (String.eqb t "End") | None => true end.

(** Induction over a tree together with its children. *)
Fixpoint hier_rect' (P : hier -> Prop)
    (HJ : forall h o c kids, Forall P kids -> P (HJoint h o c kids))
    (HE : forall o, P (HEndSite o)) (t : hier) {struct t} : P t :=
  match t with
  | HJoint h o c kids =>
      HJ h o c kids
        ((fix each (ks : list hier) : Forall P ks :=
            match ks with
            | [] => Forall_nil P
            | k :: ks' => Forall_cons k (hier_rect' P HJ HE k) (each ks')
            end) kids)
  | HEndSite o => HE o
  end.

Fixpoint node_rect' (P : node -> Prop)
    (H : forall nm ty off chs kids,
        Forall P kids -> P (mkNode nm ty off chs kids))
    (nd : node) {struct nd} : P nd :=
  match nd with
  | mkNode nm ty off chs kids =>
      H nm ty off chs kids
        ((fix each (ks : list node) : Forall P ks :=
            match ks with
            | [] => Forall_nil P
            | k :: ks' => Forall_cons k (node_rect' P H k) (each ks')
            end) kids)
  end.

(** Every character of a string satisfies [p]. *)
Inductive all_chars (p : ascii -> bool) : string -> Prop :=
| all_nil : all_chars p EmptyString
| all_cons c s : p c = true -> all_chars p s -> all_chars p (String c s).

(* ================================================================== *)
(** * The traversal of [updateFrame], described by ranges

    A second description of the forward-kinematics walk, in which no
    cursor moves: every joint is given the index at which its channel
    values start, computed from the channel counts of the joints that
    precede it.  [updateBone_visits] shows that the code computes
    exactly this. *)

(** The loop over the children at the end of [updateBone]. *)
Definition updateBones (world : THREE.Matrix4) (frameData : option (list num))
  : list node -> frame_state -> result frame_state :=
  fix each (cs : list node) (st : frame_state) : result frame_state :=
    match cs with
    | [] => OK st
    | child :: cs' =>
        do st <- updateBone child world frameData st;
        each cs' st
    end.

(** The loop over the children at the end of [createBonesFromBVH]. *)
Definition createBonesOfChildren (parent : node) (pos : THREE.Vector3)
  : list node -> Map bone -> result (Map bone) :=
  fix each (cs : list node) (bones : Map bone) : result (Map bone) :=
    match cs with
    | [] => OK bones
    | child :: cs' =>
        do bones <- createBonesFromBVH child (Some parent) pos bones;
        each cs' bones
    end.

(** The joints of a tree in pre-order, children in declaration order. *)
Fixpoint preorder (nd : node) : list node :=
  nd :: flat_map preorder (children nd).

Definition channel_count (nd : node) : nat := List.length (channels nd).

(** The local transform of a joint whose channel values start at
    [base]: the [k]-th channel takes the frame element [base + k]. *)
Definition localTransform (nd : node) (frameData : list num) (base : nat)
  : THREE.Matrix4 :=
  fold_left
    (fun local kc => apply_channel (snd kc) (read frameData (base + fst kc)) local)
    (combine (seq 0 (channel_count nd)) (channels nd))
    (local_offset (offset nd)).

(** One call of [updateBone]: the joint, the index at which its values
    start, and its world transform. *)
Record visit : Type := mkVisit {
  v_node : node;
  v_base : nat;
  v_world : THREE.Matrix4 }.

Definition visit_pos (v : visit) : THREE.Vector3 :=
  THREE.setFromMatrixPosition (v_world v).

Fixpoint visits (nd : node) (parentTransform : THREE.Matrix4) (base : nat)
    (frameData : list num) {struct nd} : list visit :=
  match nd with
  | mkNode nm ty off chs kids =>
      let world :=
        THREE.multiplyMatrices parentTransform (localTransform nd frameData base) in
      mkVisit nd base world
      :: (fix each (cs : list node) (b : nat) : list visit :=
            match cs with
            | [] => []
            | child :: cs' =>
                visits child world b frameData
                ++ each cs' (b + channel_sum all_joints child)
            end) kids (base + List.length chs)
  end.

Definition visits_of_children (world : THREE.Matrix4) (frameData : list num)
  : list node -> nat -> list visit :=
  fix each (cs : list node) (b : nat) : list visit :=
    match cs with
    | [] => []
    | child :: cs' =>
        visits child world b frameData
        ++ each cs' (b + channel_sum all_joints child)
    end.


(** What the visits do to the bone table and to [endSiteUpdates]. *)
Definition bones_after (vs : list visit) (bones : Map bone) : Map bone :=
  fold_left (fun b v => move_bone b (name (v_node v)) (visit_pos v)) vs bones.

Definition updates_after (vs : list visit) (updates : Map THREE.Vector3)
  : Map THREE.Vector3 :=
  fold_left
    (fun u v =>
       record_end_sites (name (v_node v)) (visit_pos v) (children (v_node v)) u)
    vs updates.


(** The position of the sphere stored under [k], if any: the frame
    evaluation's output for the bone identifier [k]. *)
Definition world_position (bones : Map bone) (k : string)
  : option THREE.Vector3 :=
  option_map sphere (Map_get bones (Some k)).

(** The number of entries of a map under the key [k]. *)
Definition entries {V : Type} (m : Map V) (k : key) : nat :=
  List.length (filter (fun kv => key_eqb (fst kv) k) m).



(* ================================================================== *)
(** * Concrete inputs *)

(** The scenario of the specification: Hip, Head and an End Site, one
    frame of nine zeros. *)
Definition scenario : string :=
"HIERARCHY
ROOT Hip
{
  OFFSET 0 0 0
  CHANNELS 6 Xposition Yposition Zposition Zrotation Xrotation Yrotation
  JOINT Head
  {
    OFFSET 0 20 0
    CHANNELS 3 Zrotation Xrotation Yrotation
    End Site
    {
      OFFSET 0 5 0
    }
  }
}
MOTION
Frames: 1
Frame Time: 0.0333333
0 0 0 0 0 0 0 0 0
".

Definition scenario_hier : hier :=
  HJoint "ROOT Hip" "OFFSET 0 0 0"
    "CHANNELS 6 Xposition Yposition Zposition Zrotation Xrotation Yrotation"
    [HJoint "JOINT Head" "OFFSET 0 20 0"
       "CHANNELS 3 Zrotation Xrotation Yrotation"
       [HEndSite "OFFSET 0 5 0"]].

(** The same hierarchy with a frame of three values instead of nine. *)
Definition narrow_frame : string :=
"HIERARCHY
ROOT Hip
{
  OFFSET 0 0 0
  CHANNELS 6 Xposition Yposition Zposition Zrotation Xrotation Yrotation
  JOINT Head
  {
    OFFSET 0 20 0
    CHANNELS 3 Zrotation Xrotation Yrotation
    End Site
    {
      OFFSET 0 5 0
    }
  }
}
MOTION
Frames: 1
Frame Time: 0.0333333
1 2 3
".

(** Ten frames declared, four present. *)
Definition truncated_motion : string :=
"HIERARCHY
ROOT Hip
{
  OFFSET 0 0 0
  CHANNELS 3 Zrotation Xrotation Yrotation
}
MOTION
Frames: 10
Frame Time: 0.04
0 0 0
1 0 0
2 0 0
3 0 0
".



Definition origin : THREE.Vector3 := THREE.mkVector3 (Fin 0) (Fin 0) (Fin 0).

(** A matrix whose sixteen entries are numbers, none of them NaN. *)
Definition finite_matrix (m : THREE.Matrix4) : Prop :=
  exists a11 a12 a13 a14 a21 a22 a23 a24 a31 a32 a33 a34 a41 a42 a43 a44 : R,
    m = THREE.set (Fin a11) (Fin a12) (Fin a13) (Fin a14)
                  (Fin a21) (Fin a22) (Fin a23) (Fin a24)
                  (Fin a31) (Fin a32) (Fin a33) (Fin a34)
                  (Fin a41) (Fin a42) (Fin a43) (Fin a44).

(** The skeleton and the motion of [scenario], as [parse] returns them. *)
Definition site_node : node :=
  mkNode (Some "Site") (Some "End") (Fin 0, Fin 5, Fin 0) [] [].

Definition head_node : node :=
  mkNode (Some "Head") (Some "JOINT") (Fin 0, Fin 20, Fin 0)
         ["Zrotation"; "Xrotation"; "Yrotation"] [site_node].

Definition hip_node : node :=
  mkNode (Some "Hip") (Some "ROOT") (Fin 0, Fin 0, Fin 0)
         ["Xposition"; "Yposition"; "Zposition";
          "Zrotation"; "Xrotation"; "Yrotation"] [head_node].

Definition nine_zeros : list num :=
  [Fin 0; Fin 0; Fin 0; Fin 0; Fin 0; Fin 0; Fin 0; Fin 0; Fin 0].

Definition scenario_motion : MotionData :=
  mkMotionData 1 (Fin (333333 / 10000000)) [nine_zeros].

Definition scenario_parsed : parsed :=
  mkParsed hip_node scenario_motion (Some 9%Z).


(** The viewer holding [scenario] after its bone table is built, and
    after frame 0 is evaluated. *)
Definition scenario_viewer : viewer :=
  match createBonesFromBVH hip_node None origin [] with
  | OK table => with_bones (loaded scenario_parsed) table
  | Err _ => loaded scenario_parsed
  end.

Definition scenario_posed : viewer :=
  with_bones scenario_viewer
    (bones_after
       [mkVisit hip_node 0 (THREE.makeTranslation (Fin 0) (Fin 0) (Fin 0));
        mkVisit head_node 6 (THREE.makeTranslation (Fin 0) (Fin 20) (Fin 0));
        mkVisit site_node 9 (THREE.makeTranslation (Fin 0) (Fin 25) (Fin 0))]
       (bones scenario_viewer)).








(** A joint turned a quarter about Z, with an End Site five units up
    its Y axis; the End Site carries the type the viewer tests for. *)
Definition bent_site : node :=
  mkNode (Some "End Site") (Some "End Site") (Fin 0, Fin 5, Fin 0) [] [].

Definition bent_root : node :=
  mkNode (Some "Hip") (Some "ROOT") (Fin 0, Fin 0, Fin 0) ["Zrotation"]
         [bent_site].



(** A root with two rotation channels in a given order, and a head one
    unit up. *)
Definition turn_head : node :=
  mkNode (Some "Head") (Some "JOINT") (Fin 0, Fin 1, Fin 0) ["Yrotation"] [].

Definition turn_root (chs : list string) : node :=
  mkNode (Some "Hip") (Some "ROOT") (Fin 0, Fin 0, Fin 0) chs [turn_head].

Definition quarter_turns : list num := [Fin 90; Fin 90; Fin 0].

Definition turn_viewer (chs : list string) (table : Map bone) : viewer :=
  mkViewer (Some (turn_root chs))
           (Some (mkMotionData 1 (Fin 1) [quarter_turns]))
           (Some 3%Z) table None (Fin 1) origin.

(* ================================================================== *)
(** * Further concrete inputs *)

(** The scenario followed by a second ROOT block before MOTION. *)
Definition second_root_lines : list string :=
  ["ROOT Other"; "{"; "OFFSET 1 2 3"; "CHANNELS 3 Zrotation Xrotation Yrotation";
   "}"; "MOTION"; "Frames: 1"; "Frame Time: 0.0333333"; "0 0 0 0 0 0 0 0 0"].

Definition scenario_motion_lines : list string :=
  ["MOTION"; "Frames: 1"; "Frame Time: 0.0333333"; "0 0 0 0 0 0 0 0 0"].

(* ================================================================== *)
(** * What a frame evaluation writes

    Every write of [updateFrame] to the bone table is a
    [bone.sphere.position.copy] on the bone found under a key.  The
    writes of one evaluation, in the order the code makes them: one per
    visited joint, then one per entry of [endSiteUpdates]. *)

(** An entry of the bone table without the position of its sphere. *)
Definition fixed_part (kb : key * bone)
  : key * (node * list string * THREE.Vector3) :=
  (fst kb, (bone_node (snd kb), bone_channels (snd kb), position (snd kb))).

Definition apply_moves (ms : list (key * THREE.Vector3)) (bones : Map bone)
  : Map bone :=
  fold_left (fun b m => move_bone b (fst m) (snd m)) ms bones.






(** The bones found under the names of a list, in the order of the
    list: what a loop of [findLowestFootPosition] over names looks at. *)
Definition named (bones : Map bone) (names : list string) : list bone :=
  flat_map (fun nm => match Map_get bones (Some nm) with
                      | Some b => [b]
                      | None => []
                      end) names.

(** [acc] is the lowest of the bones [seen]: nothing, when no height is
    a number; else the sphere of one of them, at a height that is a
    number and that none of them is below. *)
Definition lowest_of (seen : list bone) (acc : lowest) : Prop :=
  match acc with
  | None => forall b, In b seen -> THREE.y (sphere b) = NaN
  | Some p =>
      exists yp, THREE.y p = Fin yp /\
                 (exists b, In b seen /\ sphere b = p) /\
                 forall b y', In b seen -> THREE.y (sphere b) = Fin y' ->
                              (yp <= y')%R
  end.

(** A table for the foot search: a toe below a hip, and a head. *)
Definition standing (height : R) : bone :=
  mkBone (THREE.mkVector3 (Fin 0) (Fin height) (Fin 0)) hip_node []
         (THREE.mkVector3 (Fin 0) (Fin height) (Fin 0)).

Definition standing_table : Map bone :=
  [(Some "Hips", standing 90); (Some "LeftToes", standing 2);
   (Some "Head", standing 170); (Some "Tail", standing 1)].

(* ================================================================== *)
(** * Playback

    [play], [pause], [reset], the speed control and [animate], on the
    fields they read and write.  The current frame is an integer or NaN:
    it is only ever assigned 0 or the result of [%]. *)

(** [a === 0]. *)
Definition is_zero (a : num) : bool :=
  match a with
  | Fin x => if Req_dec_T x 0 then true else false
  | NaN => false
  end.

(** [Math.floor]. *)
Definition floor (a : num) : jsint :=
  match a with Fin x => Some (Int_part x) | NaN => None end.

(** An integer or NaN used as a number. *)
Definition of_int (i : jsint) : num :=
  match i with Some k => Fin (IZR k) | None => NaN end.

(** [a % n] for an integer [a] and an array length [n]: the remainder
    has the sign of [a], and [a % 0] is NaN. *)
Definition imod (a : jsint) (n : nat) : jsint :=
  match a with
  | Some k => if (n =? 0)%nat then None else Some (Z.rem k (Z.of_nat n))
  | None => None
  end.

Record player : Type := mkPlayer {
  view : viewer;
  isPlaying : bool;
  currentFrame : jsint;
  playSpeed : num;
  lastFrameTime : num;
  frameAccumulator : num }.

Definition play (p : player) : player :=
  mkPlayer (view p) true (currentFrame p) (playSpeed p) (Fin 0)
           (frameAccumulator p).




(** One call of [animate] by [requestAnimationFrame], up to the
    rendering.  When [updateFrame] throws, the call ends with the
    exception; the fields assigned before it are not followed further. *)
Definition animate (currentTime : num) (p : player) : result player :=
  if isPlaying p then
    match motionData (view p) with
    | None => OK p
    | Some md =>
        let last := if is_zero (lastFrameTime p) then currentTime
                    else lastFrameTime p in
        let deltaTime := nmul (nsub currentTime last) (playSpeed p) in
        let bvhFrameTimeMs := nmul (frameTime md) (Fin 1000) in
        let acc := nadd (frameAccumulator p) deltaTime in
        if nle bvhFrameTimeMs acc then
          let framesToAdvance := floor (ndiv acc bvhFrameTimeMs) in
          let current :=
            imod (iadd (currentFrame p) framesToAdvance) (frameCount md) in
          let acc := nsub acc (nmul (of_int framesToAdvance) bvhFrameTimeMs) in
          do v <- updateFrame current (view p);
          OK (mkPlayer v true current (playSpeed p) currentTime acc)
        else
          OK (mkPlayer (view p) true (currentFrame p) (playSpeed p)
                       currentTime acc)
    end
  else OK p.







(** The viewer as the constructor leaves its playback fields. *)
Definition player_of (v : viewer) : player :=
  mkPlayer v false (Some 0%Z) (Fin 1) (Fin 0) (Fin 0).

(** The scenario with a frame time of 0. *)
Definition stalled_viewer : viewer :=
  mkViewer (Some hip_node) (Some (mkMotionData 1 (Fin 0) [nine_zeros]))
           (Some 9%Z) (bones scenario_viewer) None (Fin 1) origin.

(* ================================================================== *)
(** * The orbit camera of [setupControls]

    The local variables of [setupControls] and the position of the
    camera, over the reals: the coordinates and wheel deltas of mouse
    events are numbers. *)

Record controls : Type := mkControls {
  isMouseDown : bool;
  mouseX : R;
  mouseY : R;
  rotationX : R;
  rotationY : R;
  radius : R;
  camera_position : R * R * R }.

Definition center : R * R * R := (0, 40, 0)%R.

Definition updateCameraPosition (c : controls) : controls :=
  let '(cx, cy, cz) := center in
  mkControls (isMouseDown c) (mouseX c) (mouseY c)
    (rotationX c) (rotationY c) (radius c)
    (cos (rotationY c) * cos (rotationX c) * radius c + cx,
     sin (rotationX c) * radius c + cy,
     sin (rotationY c) * cos (rotationX c) * radius c + cz)%R.

(** The state when [setupControls] returns. *)
Definition setupControls : controls :=
  updateCameraPosition
    (mkControls false 0 0 (- (2 / 10)) 0 150 (0, 0, 0))%R.

Inductive mouse_event : Type :=
| mousedown (clientX clientY : R)
| mousemove (clientX clientY : R)
| mouseup
| wheel (deltaY : R).

Definition on_mouse (e : mouse_event) (c : controls) : controls :=
  match e with
  | mousedown clientX clientY =>
      mkControls true clientX clientY (rotationX c) (rotationY c) (radius c)
                 (camera_position c)
  | mousemove clientX clientY =>
      if negb (isMouseDown c) then c
      else
        let deltaX := (clientX - mouseX c)%R in
        let deltaY := (clientY - mouseY c)%R in
        let rotY := (rotationY c + deltaX * (5 / 1000))%R in
        let rotX := (rotationX c - deltaY * (5 / 1000))%R in
        let rotX :=
          Rmax (- PI / 2 * (9 / 10)) (Rmin (PI / 2 * (9 / 10)) rotX) in
        let c := updateCameraPosition
                   (mkControls (isMouseDown c) (mouseX c) (mouseY c)
                      rotX rotY (radius c) (camera_position c)) in
        mkControls (isMouseDown c) clientX clientY (rotationX c)
                   (rotationY c) (radius c) (camera_position c)
  | mouseup =>
      mkControls false (mouseX c) (mouseY c) (rotationX c) (rotationY c)
                 (radius c) (camera_position c)
  | wheel deltaY =>
      let scaleFactor := if Rlt_dec 0 deltaY then (11 / 10)%R else (9 / 10)%R in
      let r := (radius c * scaleFactor)%R in
      let r := Rmax 50 (Rmin 500 r) in
      updateCameraPosition
        (mkControls (isMouseDown c) (mouseX c) (mouseY c)
           (rotationX c) (rotationY c) r (camera_position c))
  end.

Definition after_mouse (es : list mouse_event) : controls :=
  fold_left (fun c e => on_mouse e c) es setupControls.

(** The square of the distance between two points. *)
Definition distance2 (p q : R * R * R) : R :=
  let '(px, py, pz) := p in
  let '(qx, qy, qz) := q in
  ((px - qx) * (px - qx) + (py - qy) * (py - qy) + (pz - qz) * (pz - qz))%R.

(** What every handler of [setupControls] keeps. *)
Definition in_orbit (c : controls) : Prop :=
  (50 <= radius c <= 500)%R /\
  (- PI / 2 * (9 / 10) <= rotationX c <= PI / 2 * (9 / 10))%R /\
  camera_position c
  = (cos (rotationY c) * cos (rotationX c) * radius c + 0,
     sin (rotationX c) * radius c + 40,
     sin (rotationY c) * cos (rotationX c) * radius c + 0)%R.


(* ================================================================== *)
(** * Rigid transforms

    A transform made of translations and rotations moves points without
    changing distances.  Such a matrix has numbers for entries, the
    bottom row of an affine map, and a linear part that keeps the
    length of every vector. *)








(* ================================================================== *)
(** * The rest pose

    The joints in pre-order, each with the position that
    [createBonesFromBVH] computes for it: the offsets summed along the
    path from the root. *)



(* ================================================================== *)
(** * Line endings *)

(** The text with every line feed preceded by a carriage return, as a
    file saved with CR LF line endings has it. *)
Fixpoint to_crlf (s : string) : string :=
  match s with
  | EmptyString => EmptyString
  | String c r =>
      if Ascii.eqb c "010"%char
      then String "013"%char (String "010"%char (to_crlf r))
      else String c (to_crlf r)
  end.

(** A carriage return at the end of every line but the last. *)
Fixpoint cr_lines (ls : list string) : list string :=
  match ls with
  | [] => []
  | [l] => [l]
  | l :: rest => (l ++ String "013"%char EmptyString)%string :: cr_lines rest
  end.

(* ================================================================== *)
(** * The lines between bones

    [createBonesFromBVH] also records, for every joint but the root, a
    connection between the joint and its parent; [createSkeletonLines]
    draws a line for each connection whose two bones exist, and
    [updateSkeletonLines] moves the ends of the lines to the spheres. *)

(** A name that is a non-empty string: [node.name] used as a condition. *)
Definition truthy (nm : option string) : bool :=
  match nm with
  | Some s => negb (String.eqb s EmptyString)
  | None => false
  end.

Record connection : Type := mkConnection {
  c_parent : key;
  c_child : key;
  childType : option string }.

(** The pushes to [this.boneConnections], in the order of the
    traversal of [createBonesFromBVH], for a traversal that returns. *)
Fixpoint boneConnections (nd : node) (parentNode : option node)
  : list connection :=
  match nd with
  | mkNode nm ty off chs kids =>
      match parentNode with
      | Some p =>
          if truthy nm then [mkConnection (name p) nm ty]
          else if is_End_Site nd
               then [mkConnection (name p) (endSiteName (name p))
                                  (Some "End Site")]
               else []
      | None => []
      end
      ++ flat_map (fun k => boneConnections k (Some nd)) kids
  end.

(** A line: the two names kept in [userData], whether it has the colour
    of an End Site line, and the two points of its geometry. *)
Record line : Type := mkLine {
  parentName : key;
  childName : key;
  endSiteColour : bool;
  points : THREE.Vector3 * THREE.Vector3 }.

Definition createSkeletonLines (connections : list connection)
    (bones : Map bone) : list line :=
  flat_map
    (fun c =>
       match Map_get bones (c_parent c), Map_get bones (c_child c) with
       | Some parentBone, Some childBone =>
           [mkLine (c_parent c) (c_child c)
                   (match childType c with
                    | Some t => String.eqb t "End Site"
                    | None => false
                    end)
                   (sphere parentBone, sphere childBone)]
       | _, _ => []
       end)
    connections.

Definition updateSkeletonLines (lines : list line) (bones : Map bone)
  : list line :=
  map (fun l =>
         match Map_get bones (parentName l), Map_get bones (childName l) with
         | Some parentBone, Some childBone =>
             mkLine (parentName l) (childName l) (endSiteColour l)
                    (sphere parentBone, sphere childBone)
         | _, _ => l
         end)
      lines.


(** [findAbsoluteLowestPosition]: the loop over the whole table. *)
Definition findAbsoluteLowestPosition (bones : Map bone) : lowest :=
  fold_left (fun a kv => lower a (snd kv)) bones None.


(* ================================================================== *)
(** * The parser terminates *)

(** Library functions stay folded while the parser is unfolded. *)
Arguments nth_error : simpl never.
Arguments String.eqb : simpl never.
Arguments startsWith : simpl never.
Arguments split_ws : simpl never.
Arguments parseInt : simpl never.
Arguments parseFloat : simpl never.
Arguments slice : simpl never.
Arguments iadd : simpl never.

(** [parseNode] consumes at least its two header lines, the loop never
    moves back, and neither runs out of fuel when given two units per
    remaining line. *)
Lemma parse_progress (lines : list string) (fuel : nat) :
  (forall isRoot index,
      2 * (List.length lines - index) + 1 <= fuel ->
      parseNode fuel lines isRoot index <> Err OutOfFuel /\
      forall nd t i, parseNode fuel lines isRoot index = OK (nd, t, i) ->
                     index + 2 <= i) /\
  (forall index nd t,
      2 * (List.length lines - index) + 2 <= fuel ->
      parseBody fuel lines index nd t <> Err OutOfFuel /\
      forall nd' t' i, parseBody fuel lines index nd t = OK (nd', t', i) ->
                       index <= i).
Proof.
  induction fuel as [|fuel [IHn IHb]].
  - split; intros; lia.
  - split.
    + intros isRoot index Hf. simpl.
      destruct (nth_error lines index) as [line|] eqn:El; simpl;
        [|split; [discriminate | intros ? ? ? H; discriminate H]].
      destruct (nth_error lines (S index)) as [brace|] eqn:Eb; simpl;
        [|split; [discriminate | intros ? ? ? H; discriminate H]].
      destruct (String.eqb brace "{"); simpl;
        [|split; [discriminate | intros ? ? ? H; discriminate H]].
      assert (Hlen : S index < List.length lines)
        by (apply nth_error_Some; congruence).
      match goal with
      | |- context [parseBody fuel lines ?i ?n ?t] =>
          destruct (IHb i n t ltac:(lia)) as [Hne Hmono];
          destruct (parseBody fuel lines i n t) as [[[nd' t'] i']|e] eqn:Ep
      end; simpl.
      * specialize (Hmono _ _ _ eq_refl).
        split; [discriminate|].
        intros nd0 t0 i0 H. inversion H; subst.
        destruct (nth_error lines i') as [l|]; [destruct (String.eqb l "}")|]; lia.
      * split; [congruence | intros ? ? ? H; discriminate H].
    + intros index nd t Hf. simpl.
      destruct (nth_error lines index) as [line|] eqn:El;
        [|split; [discriminate | intros ? ? ? H; inversion H; lia]].
      assert (Hlen : index < List.length lines)
        by (apply nth_error_Some; congruence).
      destruct (String.eqb line "}");
        [split; [discriminate | intros ? ? ? H; inversion H; lia]|].
      destruct (startsWith line "OFFSET").
      { match goal with
        | |- context [parseBody fuel lines ?i ?n ?t] =>
            destruct (IHb i n t ltac:(lia)) as [Hne Hmono]
        end.
        split; [assumption | intros ? ? ? H; apply Hmono in H; lia]. }
      destruct (startsWith line "CHANNELS").
      { match goal with
        | |- context [parseBody fuel lines ?i ?n ?t] =>
            destruct (IHb i n t ltac:(lia)) as [Hne Hmono]
        end.
        split; [assumption | intros ? ? ? H; apply Hmono in H; lia]. }
      destruct (startsWith line "JOINT" || startsWith line "End Site").
      { destruct (IHn false index ltac:(lia)) as [Hne Hmono].
        destruct (parseNode fuel lines false index) as [[[c ct] i']|e] eqn:Ec;
          simpl.
        - specialize (Hmono _ _ _ eq_refl).
          match goal with
          | |- context [parseBody fuel lines ?i ?n ?t] =>
              destruct (IHb i n t ltac:(lia)) as [Hne' Hmono']
          end.
          split; [assumption | intros ? ? ? H; apply Hmono' in H; lia].
        - split; [congruence | intros ? ? ? H; discriminate H]. }
      match goal with
      | |- context [parseBody fuel lines ?i ?n ?t] =>
          destruct (IHb i n t ltac:(lia)) as [Hne Hmono]
      end.
      split; [assumption | intros ? ? ? H; apply Hmono in H; lia].
Qed.

(** The fuel [parseHierarchy] supplies is enough on every input. *)
Lemma parseNode_total (lines : list string) (isRoot : bool) (index : nat) :
  parseNode (hierarchy_fuel lines) lines isRoot index <> Err OutOfFuel.
Proof.
  apply (parse_progress lines (hierarchy_fuel lines)).
  unfold hierarchy_fuel. lia.
Qed.

(* ================================================================== *)
(** * Parsing a hierarchy of the documented form *)

Lemma nth_error_skip {A : Type} (pre l : list A) (i k : nat) :
  i = List.length pre + k -> nth_error (pre ++ l) i = nth_error l k.
Proof.
  intros ->. rewrite nth_error_app2 by lia. f_equal. lia.
Qed.

Lemma startsWith_cons (l p : string) (c : ascii) :
  startsWith l (String c p) = true -> exists r, l = String c r.
Proof.
  unfold startsWith. destruct l as [|a r]; simpl; [discriminate|].
  destruct (ascii_dec c a) as [->|]; [eauto | discriminate].
Qed.

Lemma offset_line_dispatch (l : string) :
  valid_offset l = true -> String.eqb l "}" = false.
Proof.
  intros H. apply startsWith_cons in H as [r ->]. reflexivity.
Qed.

Lemma channels_line_dispatch (l : string) :
  startsWith l "CHANNELS" = true ->
  String.eqb l "}" = false /\ startsWith l "OFFSET" = false.
Proof.
  intros H. apply startsWith_cons in H as [r ->]. split; reflexivity.
Qed.

Lemma joint_line_dispatch (l : string) :
  startsWith l "JOINT" = true ->
  String.eqb l "}" = false /\ startsWith l "OFFSET" = false
  /\ startsWith l "CHANNELS" = false.
Proof.
  intros H. apply startsWith_cons in H as [r ->]. repeat split; reflexivity.
Qed.

(** On a valid CHANNELS line the slice holds every name after the count,
    and there are as many as declared. *)
Lemma valid_channels_slice (l : string) :
  valid_channels l = true ->
  exists n : nat,
    parseInt (toStr (nth_error (split_ws l) 1)) = Some (Z.of_nat n) /\
    slice (split_ws l) 2 (iadd (Some 2%Z) (Some (Z.of_nat n)))
      = skipn 2 (split_ws l) /\
    List.length (skipn 2 (split_ws l)) = n.
Proof.
  unfold valid_channels. intros H.
  apply andb_true_iff in H as [_ H].
  destruct (parseInt (toStr (nth_error (split_ws l) 1))) as [n|];
    [|discriminate].
  apply andb_true_iff in H as [Hlen Hn].
  apply Nat.leb_le in Hlen. apply Z.eqb_eq in Hn.
  exists (List.length (split_ws l) - 2). subst n.
  split; [reflexivity|]. split.
  - unfold slice, iadd, rel_index.
    assert (H0 : (2 <? 0)%Z = false) by reflexivity. rewrite H0.
    destruct (2 + Z.of_nat (List.length (split_ws l) - 2) <? 0)%Z eqn:E;
      [apply Z.ltb_lt in E; lia|].
    replace (Z.to_nat (Z.min 2 (Z.of_nat (List.length (split_ws l))))) with 2
      by lia.
    apply firstn_all2. rewrite length_skipn. lia.
  - rewrite length_skipn. reflexivity.
Qed.

(** The tree, the channel total and the end index that [parseNode]
    returns on the lines of a valid hierarchy, wherever they stand. *)
Lemma parseNode_valid (t : hier) :
  forall kw isRoot pre post fuel,
    valid kw t = true ->
    2 * List.length (render t ++ post) + 1 <= fuel ->
    parseNode fuel (pre ++ render t ++ post) isRoot (List.length pre)
    = OK (expected isRoot t,
          Some (Z.of_nat (channel_sum all_joints (expected isRoot t))),
          List.length pre + List.length (render t)).
Proof.
  induction t as [hdr off chs kids IH | off] using hier_rect';
    intros kw isRoot pre post fuel Hv Hf.
  - simpl in Hv.
    apply andb_true_iff in Hv as [Hv Hkids].
    apply andb_true_iff in Hv as [Hv Hchs].
    apply andb_true_iff in Hv as [Hhdr Hoff].
    (* the loop over the children *)
    assert (Hloop : forall ks pre' nd tot fuel',
      Forall (fun k => forall kw isRoot pre post fuel,
                valid kw k = true ->
                2 * List.length (render k ++ post) + 1 <= fuel ->
                parseNode fuel (pre ++ render k ++ post) isRoot (List.length pre)
                = OK (expected isRoot k,
                      Some (Z.of_nat (channel_sum all_joints (expected isRoot k))),
                      List.length pre + List.length (render k))) ks ->
      forallb (valid "JOINT") ks = true ->
      2 * List.length (flat_map render ks ++ "}" :: post) + 2 <= fuel' ->
      parseBody fuel' (pre' ++ flat_map render ks ++ "}" :: post)
                (List.length pre') nd (Some tot)
      = OK (mkNode (name nd) (type nd) (offset nd) (channels nd)
                   (children nd ++ map (expected false) ks),
            Some (tot + Z.of_nat (list_sum
                    (map (channel_sum all_joints) (map (expected false) ks))))%Z,
            List.length pre' + List.length (flat_map render ks))).
    { clear. induction ks as [|k ks IHks]; intros pre' nd tot fuel' HF Hv Hf.
      - simpl in *. destruct fuel' as [|f]; [lia|]. simpl.
        rewrite (nth_error_skip pre' _ _ 0) by lia. simpl.
        rewrite app_nil_r, Z.add_0_r, Nat.add_0_r. destruct nd; reflexivity.
      - inversion HF as [|? ? Hk HF']; subst.
        simpl in Hv. apply andb_true_iff in Hv as [Hvk Hvks].
        simpl flat_map in *. rewrite <- app_assoc in *.
        destruct fuel' as [|f]; [lia|].
        assert (Hhead : exists l rest, render k = l :: rest /\
                 String.eqb l "}" = false /\ startsWith l "OFFSET" = false /\
                 startsWith l "CHANNELS" = false /\
                 (startsWith l "JOINT" || startsWith l "End Site") = true).
        { destruct k as [h o c kk | o]; simpl.
          - eexists. eexists. split; [reflexivity|].
            assert (Hs : startsWith h "JOINT" = true).
            { simpl in Hvk. unfold valid_header in Hvk.
              repeat (apply andb_true_iff in Hvk as [Hvk _]). exact Hvk. }
            destruct (joint_line_dispatch _ Hs) as (? & ? & ?).
            rewrite Hs. repeat split; assumption.
          - eexists. eexists. repeat split; reflexivity. }
        destruct Hhead as (l & rest & El & H1 & H2 & H3 & H4).
        assert (Hrk : 1 <= List.length (render k)) by (rewrite El; simpl; lia).
        simpl parseBody.
        rewrite (nth_error_skip pre' _ _ 0) by lia.
        rewrite El at 1. simpl app. unfold nth_error at 1.
        rewrite H1, H2, H3, H4.
        rewrite (Hk "JOINT" false pre' (flat_map render ks ++ "}" :: post) f Hvk)
          by (rewrite length_app in *; simpl in *; lia).
        simpl bind.
        replace (pre' ++ render k ++ flat_map render ks ++ "}" :: post)
          with ((pre' ++ render k) ++ flat_map render ks ++ "}" :: post)
          by (rewrite <- app_assoc; reflexivity).
        replace (List.length pre' + List.length (render k))
          with (List.length (pre' ++ render k)) by (rewrite length_app; lia).
        unfold iadd.
        rewrite (IHks (pre' ++ render k) _ _ f HF' Hvks)
          by (rewrite !length_app in *; simpl in *; lia).
        simpl. rewrite <- app_assoc. simpl.
        f_equal. f_equal; [f_equal; f_equal; lia|].
        rewrite !length_app. lia. }
    destruct (valid_channels_slice chs Hchs) as (n & Hn & Hslice & Hlen).
    destruct (channels_line_dispatch chs) as [Hc1 Hc2].
    { unfold valid_channels in Hchs. apply andb_true_iff in Hchs. tauto. }
    pose proof (offset_line_dispatch off Hoff) as Ho1.
    unfold valid_offset in Hoff.
    simpl render in *. simpl List.length in Hf.
    destruct fuel as [|f0]; [lia|].
    destruct f0 as [|f1]; [lia|].
    destruct f1 as [|f2]; [lia|].
    simpl parseNode.
    rewrite (nth_error_skip pre _ _ 0) by lia.
    rewrite (nth_error_skip pre _ (S _) 1) by lia.
    simpl app. unfold nth_error at 1 2.
    change (String.eqb "{" "{") with true. cbv beta iota zeta. simpl negb.
    cbv iota.
    rewrite (nth_error_skip pre _ _ 2) by lia. unfold nth_error at 1.
    rewrite Ho1, Hoff.
    rewrite (nth_error_skip pre _ _ 3) by lia. unfold nth_error at 1.
    rewrite Hc1, Hc2.
    assert (Hc3 : startsWith chs "CHANNELS" = true).
    { unfold valid_channels in Hchs. apply andb_true_iff in Hchs. tauto. }
    rewrite Hc3, Hn, Hslice.
    replace (pre ++ hdr :: "{" :: off :: chs :: (flat_map render kids ++ ["}"]) ++ post)
      with ((pre ++ [hdr; "{"; off; chs]) ++ flat_map render kids ++ "}" :: post)
      by (rewrite <- !app_assoc; reflexivity).
    replace (S (S (S (S (List.length pre)))))
      with (List.length (pre ++ [hdr; "{"; off; chs]))
      by (rewrite length_app; simpl; lia).
    unfold iadd at 1.
    rewrite (Hloop kids _ _ _ f2 IH Hkids)
      by (rewrite !length_app in *; simpl in *; lia).
    simpl bind. cbv beta iota zeta.
    rewrite (nth_error_skip _ _ _ (List.length (flat_map render kids)))
      by reflexivity.
    rewrite nth_error_app2 by lia. rewrite Nat.sub_diag.
    unfold nth_error. change (String.eqb "}" "}") with true. cbv iota.
    simpl. f_equal. f_equal; [f_equal|].
    + f_equal. simpl skipn in Hlen. rewrite Hlen. lia.
    + rewrite !length_app. simpl. lia.
  - simpl in Hv. pose proof (offset_line_dispatch off Hv) as Ho1.
    unfold valid_offset in Hv.
    simpl render in *. simpl List.length in Hf.
    destruct fuel as [|f0]; [lia|].
    destruct f0 as [|f1]; [lia|].
    destruct f1 as [|f2]; [lia|].
    simpl parseNode.
    rewrite (nth_error_skip pre _ _ 0) by lia.
    rewrite (nth_error_skip pre _ (S _) 1) by lia.
    simpl app. unfold nth_error at 1 2.
    change (String.eqb "{" "{") with true. cbv beta iota zeta. simpl negb.
    cbv iota.
    rewrite (nth_error_skip pre _ _ 2) by lia. unfold nth_error at 1.
    rewrite Ho1, Hv.
    rewrite (nth_error_skip pre _ _ 3) by lia. unfold nth_error at 1.
    change (String.eqb "}" "}") with true. cbv iota. simpl bind.
    cbv beta iota zeta.
    rewrite (nth_error_skip pre _ _ 3) by lia. unfold nth_error at 1.
    change (String.eqb "}" "}") with true. cbv iota.
    destruct isRoot; simpl; repeat f_equal; lia.
Qed.

(** On a tree denoted by a valid hierarchy, leaving out the End Sites
    (by either test) leaves the sum of the channel counts unchanged:
    their channel lists are empty. *)
Lemma channel_sum_expected (t : hier) :
  forall kw isRoot,
    kw = "ROOT" \/ kw = "JOINT" ->
    valid kw t = true ->
    channel_sum not_End_Site (expected isRoot t)
    = channel_sum all_joints (expected isRoot t) /\
    channel_sum not_End_block (expected isRoot t)
    = channel_sum all_joints (expected isRoot t).
Proof.
  induction t as [hdr off chs kids IH | off] using hier_rect';
    intros kw isRoot Hkw Hv.
  - simpl in Hv.
    apply andb_true_iff in Hv as [Hv Hkids].
    apply andb_true_iff in Hv as [Hv _].
    apply andb_true_iff in Hv as [Hhdr _].
    unfold valid_header in Hhdr. apply andb_true_iff in Hhdr as [_ Hhdr].
    assert (Hty : nth_error (split_ws hdr) 0 = Some kw).
    { destruct (split_ws hdr) as [|k [|n [|? ?]]]; try discriminate.
      apply andb_true_iff in Hhdr as [Hk _].
      apply String.eqb_eq in Hk. subst. reflexivity. }
    assert (Hsum : forall keep,
      (forall k, In k kids ->
                 channel_sum keep (expected false k)
                 = channel_sum all_joints (expected false k)) ->
      list_sum (map (channel_sum keep) (map (expected false) kids))
      = list_sum (map (channel_sum all_joints) (map (expected false) kids))).
    { intros keep Hk. rewrite !map_map. f_equal.
      apply map_ext_in. exact Hk. }
    assert (Hkid : forall k, In k kids ->
      channel_sum not_End_Site (expected false k)
      = channel_sum all_joints (expected false k) /\
      channel_sum not_End_block (expected false k)
      = channel_sum all_joints (expected false k)).
    { intros k Hin. rewrite Forall_forall in IH.
      apply (IH k Hin "JOINT" false); [right; reflexivity|].
      rewrite forallb_forall in Hkids. exact (Hkids k Hin). }
    simpl expected. simpl channel_sum.
    rewrite (Hsum not_End_Site) by (intros k Hin; apply Hkid; exact Hin).
    rewrite (Hsum not_End_block) by (intros k Hin; apply Hkid; exact Hin).
    unfold not_End_Site at 1, not_End_block at 1, is_End_Site, all_joints at 1 3.
    simpl type. rewrite Hty.
    destruct Hkw as [-> | ->]; split; reflexivity.
  - split; reflexivity.
Qed.

(** [parseHierarchy] on a text whose hierarchy has the documented form. *)
Lemma parseHierarchy_valid (lines rest : list string) (t : hier) :
  valid_root t = true ->
  lines = "HIERARCHY" :: render t ++ rest ->
  parseHierarchy lines 1
  = OK (mkHierarchy (expected true t)
          (Some (Z.of_nat (channel_sum all_joints (expected true t))))
          (1 + List.length (render t))).
Proof.
  intros Hv ->.
  assert (Hv' : valid "ROOT" t = true) by (destruct t; [exact Hv | discriminate]).
  pose proof (parseNode_valid t "ROOT" true ["HIERARCHY"] rest
                (hierarchy_fuel ("HIERARCHY" :: render t ++ rest)) Hv') as Hp.
  change (["HIERARCHY"] ++ render t ++ rest)
    with ("HIERARCHY" :: render t ++ rest) in Hp.
  change (List.length ["HIERARCHY"]) with 1 in Hp.
  unfold parseHierarchy. rewrite Hp; [reflexivity|].
  unfold hierarchy_fuel. simpl List.length. lia.
Qed.

(* ================================================================== *)
(** * Claims about the parser *)

(** C3 (as amended).  For a hierarchy text of the documented form, the
    [totalChannels] that [parse] returns is the sum of [channels.length]
    over the joints of the produced tree that are no End Sites (by the
    viewer's test and by the parser's type token alike).  The parser
    never compares this total with the width of a frame: whether [parse]
    succeeds is decided by [parseMotion] alone, which does not look at
    the hierarchy. *)
Theorem totalChannels_of_valid_hierarchy
    (content : string) (t : hier) (rest : list string) :
  valid_root t = true ->
  content_lines content = "HIERARCHY" :: render t ++ rest ->
  exists h,
    parseHierarchy (content_lines content) 1 = OK h /\
    h_totalChannels h = Some (Z.of_nat (channel_sum not_End_Site (h_node h))) /\
    h_totalChannels h = Some (Z.of_nat (channel_sum not_End_block (h_node h))) /\
    parse content =
      match findIndex "MOTION" (content_lines content) with
      | None => Err MissingMotion
      | Some motionIndex =>
          do motionData <- parseMotion (content_lines content) (motionIndex + 1);
          OK (mkParsed (h_node h) motionData (h_totalChannels h))
      end.
Proof.
  intros Hv Hlines.
  assert (Hv' : valid "ROOT" t = true) by (destruct t; [exact Hv | discriminate]).
  destruct (channel_sum_expected t "ROOT" true (or_introl eq_refl) Hv')
    as [Hs1 Hs2].
  pose proof (parseHierarchy_valid _ rest t Hv Hlines) as Hh.
  eexists. split; [exact Hh|]. simpl h_totalChannels. simpl h_node.
  split; [rewrite Hs1; reflexivity|].
  split; [rewrite Hs2; reflexivity|].
  unfold parse. rewrite Hh. rewrite Hlines. reflexivity.
Qed.

(** The scenario of the specification is an instance: nine channels. *)
Lemma totalChannels_of_valid_hierarchy_witness :
  exists h,
    parseHierarchy (content_lines scenario) 1 = OK h /\
    h_totalChannels h = Some (Z.of_nat (channel_sum not_End_Site (h_node h))) /\
    h_totalChannels h = Some (Z.of_nat (channel_sum not_End_block (h_node h))) /\
    parse scenario =
      match findIndex "MOTION" (content_lines scenario) with
      | None => Err MissingMotion
      | Some motionIndex =>
          do motionData <- parseMotion (content_lines scenario) (motionIndex + 1);
          OK (mkParsed (h_node h) motionData (h_totalChannels h))
      end.
Proof.
  apply (totalChannels_of_valid_hierarchy scenario scenario_hier
           ["MOTION"; "Frames: 1"; "Frame Time: 0.0333333";
            "0 0 0 0 0 0 0 0 0"]).
  - vm_compute. reflexivity.
  - vm_compute. reflexivity.
Defined.

(** C3 (as stated) fails: a valid hierarchy with nine channels and a
    frame of three values is parsed without an error, and the width of
    its frame is not [totalChannels]. *)
Lemma frame_width_not_checked :
  exists p,
    parse narrow_frame = OK p /\
    p_totalChannels p = Some 9%Z /\
    map (@List.length num) (frames (p_motionData p)) = [3].
Proof.
  eexists. split; [vm_compute; reflexivity|]. split; reflexivity.
Qed.

Lemma readFrames_all (N : Z) (rest : list string) :
  forall i : Z,
    (i + Z.of_nat (List.length rest) <= N)%Z ->
    readFrames (Some N) i rest
    = map (fun line => map parseFloat (split_ws line)) rest.
Proof.
  induction rest as [|line rest IH]; intros i Hi; [reflexivity|].
  simpl List.length in Hi. simpl.
  assert (Hlt : (i <? N)%Z = true) by (apply Z.ltb_lt; lia).
  rewrite Hlt. f_equal. apply IH. lia.
Qed.

(** C6.  When the MOTION section declares [N] frames and only [k < N]
    lines follow the Frame Time line, [parse] returns a result (no
    exception) whose [frameCount] is [k] and whose [frames] are the [k]
    lines that are there. *)
Theorem partial_motion_is_accepted
    (content : string) (lines : list string) (h : hierarchy)
    (motionIndex : nat) (framesLine declared frameTimeLine time : string)
    (N : Z) (k : nat) :
  content_lines content = lines ->
  nth_error lines 0 = Some "HIERARCHY" ->
  parseHierarchy lines 1 = OK h ->
  findIndex "MOTION" lines = Some motionIndex ->
  nth_error lines (motionIndex + 1) = Some framesLine ->
  match_frames framesLine = Some declared ->
  parseInt declared = Some N ->
  nth_error lines (motionIndex + 2) = Some frameTimeLine ->
  match_frame_time frameTimeLine = Some time ->
  List.length (skipn (motionIndex + 3) lines) = k ->
  (Z.of_nat k < N)%Z ->
  exists p,
    parse content = OK p /\
    frameCount (p_motionData p) = k /\
    List.length (frames (p_motionData p)) = k /\
    frames (p_motionData p)
    = map (fun line => map parseFloat (split_ws line))
          (skipn (motionIndex + 3) lines).
Proof.
  intros Hl H0 Hh Hm Hf Hfm HN Ht Htm Hk HkN.
  unfold parse. rewrite Hl, H0. cbv beta iota. rewrite Hh. simpl bind.
  rewrite Hm. unfold parseMotion. rewrite Hf, Hfm, HN.
  replace (S (motionIndex + 1)) with (motionIndex + 2) by lia.
  rewrite Ht, Htm.
  replace (S (motionIndex + 2)) with (motionIndex + 3) by lia.
  rewrite readFrames_all by lia.
  eexists. split; [reflexivity|]. simpl.
  rewrite length_map. auto.
Qed.

(** [Frames: 10] with four data lines. *)
Lemma partial_motion_is_accepted_witness :
  exists p,
    parse truncated_motion = OK p /\
    frameCount (p_motionData p) = 4 /\
    List.length (frames (p_motionData p)) = 4 /\
    frames (p_motionData p)
    = map (fun line => map parseFloat (split_ws line))
          (skipn (6 + 3) (content_lines truncated_motion)).
Proof.
  eapply (partial_motion_is_accepted truncated_motion
            (content_lines truncated_motion) _ 6
            "Frames: 10" "10" "Frame Time: 0.04" "0.04" 10 4).
  - reflexivity.
  - vm_compute. reflexivity.
  - vm_compute. reflexivity.
  - vm_compute. reflexivity.
  - vm_compute. reflexivity.
  - vm_compute. reflexivity.
  - vm_compute. reflexivity.
  - vm_compute. reflexivity.
  - vm_compute. reflexivity.
  - vm_compute. reflexivity.
  - lia.
Defined.

(* ------------------------------------------------------------------ *)
(** ** The frame time *)

Lemma span_all (p : ascii -> bool) (s : string) :
  all_chars p (fst (span p s)).
Proof.
  induction s as [|c s IH]; simpl; [constructor|].
  destruct (p c) eqn:E; [|constructor].
  destruct (span p s) as [a b]. simpl in *. constructor; assumption.
Qed.


Lemma digit_val_nonneg (c : ascii) : is_digit c = true -> (0 <= digit_val c)%Z.
Proof.
  unfold is_digit, digit_val. intros H.
  apply andb_true_iff in H as [H _]. apply Nat.leb_le in H. lia.
Qed.

Lemma digits_from_nonneg (s : string) :
  all_chars is_digit s -> forall acc, (0 <= acc)%Z -> (0 <= digits_from acc s)%Z.
Proof.
  induction 1 as [|c s Hc _ IH]; intros acc Hacc; simpl; [assumption|].
  apply IH. pose proof (digit_val_nonneg c Hc). lia.
Qed.










(* ================================================================== *)
(** * The traversal of [updateFrame] *)

Arguments apply_channel : simpl never.
Arguments move_bone : simpl never.
Arguments record_end_sites : simpl never.
Arguments THREE.multiplyMatrices : simpl never.
Arguments local_offset : simpl never.

(** The channel loop reads the frame at consecutive indices and leaves
    the cursor behind the last one. *)
Lemma apply_channels_from (chs : list string) (fd : list num) (b : nat) :
  forall (s : nat) (local : THREE.Matrix4),
    apply_channels chs (Some fd) (b + s) local
    = OK (fold_left
            (fun local kc =>
               apply_channel (snd kc) (read fd (b + fst kc)) local)
            (combine (seq s (List.length chs)) chs) local,
          b + s + List.length chs).
Proof.
  induction chs as [|c r IH]; intros s local; simpl.
  - f_equal. f_equal. lia.
  - replace (S (b + s)) with (b + S s) by lia.
    rewrite IH. f_equal. f_equal. lia.
Qed.

Lemma apply_channels_local (nd : node) (fd : list num) (idx : nat) :
  apply_channels (channels nd) (Some fd) idx (local_offset (offset nd))
  = OK (localTransform nd fd idx, idx + channel_count nd).
Proof.
  pose proof (apply_channels_from (channels nd) fd idx 0
                (local_offset (offset nd))) as H.
  rewrite !Nat.add_0_r in H. exact H.
Qed.

Lemma updateBone_unfold (nm ty : option string) (off : num * num * num)
    (chs : list string) (kids : list node) (T : THREE.Matrix4)
    (frameData : option (list num)) (st : frame_state) :
  updateBone (mkNode nm ty off chs kids) T frameData st
  = (do r <- apply_channels chs frameData (channelIndex st) (local_offset off);
     let '(local, idx) := r in
     let world := THREE.multiplyMatrices T local in
     let pos := THREE.setFromMatrixPosition world in
     updateBones world frameData kids
       (mkState idx (move_bone (st_bones st) nm pos)
                (record_end_sites nm pos kids (endSiteUpdates st)))).
Proof. reflexivity. Qed.

Lemma visits_unfold (nd : node) (T : THREE.Matrix4) (base : nat)
    (fd : list num) :
  visits nd T base fd
  = mkVisit nd base (THREE.multiplyMatrices T (localTransform nd fd base))
    :: visits_of_children
         (THREE.multiplyMatrices T (localTransform nd fd base)) fd
         (children nd) (base + channel_count nd).
Proof. destruct nd. reflexivity. Qed.

Lemma bones_after_app (a b : list visit) (bones : Map bone) :
  bones_after (a ++ b) bones = bones_after b (bones_after a bones).
Proof. apply fold_left_app. Qed.

Lemma updates_after_app (a b : list visit) (u : Map THREE.Vector3) :
  updates_after (a ++ b) u = updates_after b (updates_after a u).
Proof. apply fold_left_app. Qed.

(** The code and the description by ranges agree: on a frame that
    exists, [updateBone] returns, the cursor has advanced by the channel
    count of the subtree, and the bone table and [endSiteUpdates] are
    what the visits make of them. *)
Theorem updateBone_visits (nd : node) :
  forall (T : THREE.Matrix4) (fd : list num) (st : frame_state),
    updateBone nd T (Some fd) st
    = OK (mkState
            (channelIndex st + channel_sum all_joints nd)
            (bones_after (visits nd T (channelIndex st) fd) (st_bones st))
            (updates_after (visits nd T (channelIndex st) fd)
                           (endSiteUpdates st))).
Proof.
  induction nd as [nm ty off chs kids IH] using node_rect'.
  intros T fd st.
  rewrite updateBone_unfold.
  change chs with (channels (mkNode nm ty off chs kids)) at 1.
  change off with (offset (mkNode nm ty off chs kids)) at 1.
  rewrite apply_channels_local. simpl bind. cbv beta iota zeta.
  rewrite visits_unfold.
  set (nd := mkNode nm ty off chs kids) in *.
  set (world := THREE.multiplyMatrices T (localTransform nd fd (channelIndex st))).
  assert (Hloop : forall ks st',
    Forall (fun k => forall T fd st,
              updateBone k T (Some fd) st
              = OK (mkState
                      (channelIndex st + channel_sum all_joints k)
                      (bones_after (visits k T (channelIndex st) fd) (st_bones st))
                      (updates_after (visits k T (channelIndex st) fd)
                                     (endSiteUpdates st)))) ks ->
    updateBones world (Some fd) ks st'
    = OK (mkState
            (channelIndex st' + list_sum (map (channel_sum all_joints) ks))
            (bones_after (visits_of_children world fd ks (channelIndex st'))
                         (st_bones st'))
            (updates_after (visits_of_children world fd ks (channelIndex st'))
                           (endSiteUpdates st')))).
  { clear. induction ks as [|k ks IHks]; intros st' HF.
    - simpl. rewrite Nat.add_0_r. destruct st'; reflexivity.
    - inversion HF as [|? ? Hk HF']; subst.
      simpl updateBones. rewrite Hk. simpl bind.
      rewrite (IHks _ HF'). simpl.
      rewrite bones_after_app, updates_after_app.
      f_equal. f_equal. lia. }
  rewrite (Hloop kids _ IH). simpl.
  unfold nd at 1. simpl channel_sum.
  f_equal. f_equal. unfold channel_count, all_joints. simpl. lia.
Qed.






(* ================================================================== *)
(** * The bone table *)

Lemma key_eqb_eq (a b : key) : key_eqb a b = true <-> a = b.
Proof.
  destruct a as [s|], b as [t|]; simpl; split; intros H;
    try discriminate; try reflexivity.
  - apply String.eqb_eq in H. subst. reflexivity.
  - inversion H. apply String.eqb_refl.
Qed.

Lemma key_eqb_refl (a : key) : key_eqb a a = true.
Proof. apply key_eqb_eq. reflexivity. Qed.

Lemma key_eqb_trans_false (a b c : key) :
  key_eqb a b = true -> key_eqb a c = key_eqb b c.
Proof. intros H. apply key_eqb_eq in H. subst. reflexivity. Qed.



(** [set] replaces the first entry under the key or appends one. *)
Lemma entries_set {V : Type} (m : Map V) (k k' : key) (v : V) :
  entries (Map_set m k v) k'
  = if key_eqb k k' then Nat.max 1 (entries m k') else entries m k'.
Proof.
  unfold entries. induction m as [|[k0 v0] m IH]; simpl.
  - destruct (key_eqb k k'); reflexivity.
  - destruct (key_eqb k0 k) eqn:E0; simpl.
    + rewrite (key_eqb_trans_false _ _ k' E0).
      destruct (key_eqb k k'); simpl; [|reflexivity].
      destruct (List.length (filter (fun kv => key_eqb (fst kv) k') m));
        reflexivity.
    + destruct (key_eqb k0 k') eqn:E1; simpl; rewrite IH; [|reflexivity].
      destruct (key_eqb k k') eqn:E2; [|reflexivity].
      apply key_eqb_eq in E1, E2. subst.
      rewrite key_eqb_refl in E0. discriminate.
Qed.







Lemma createBones_unfold (nm ty : option string) (off : num * num * num)
    (chs : list string) (kids : list node) (parent : option node)
    (pos : THREE.Vector3) (bones : Map bone) :
  createBonesFromBVH (mkNode nm ty off chs kids) parent pos bones
  = (let nd := mkNode nm ty off chs kids in
     let pos := add_offset pos off in
     do bones <-
       (if (0 <? List.length chs)%nat && negb (is_End_Site nd) then
          OK (Map_set bones nm (mkBone pos nd chs pos))
        else if is_End_Site nd then
          match parent with
          | None => Err TypeError
          | Some p =>
              OK (Map_set bones (endSiteName (name p)) (mkBone pos nd [] pos))
          end
        else OK bones);
     createBonesOfChildren nd pos kids bones).
Proof. reflexivity. Qed.

Lemma preorder_unfold (nd : node) :
  preorder nd = nd :: flat_map preorder (children nd).
Proof. destruct nd. reflexivity. Qed.




(* ================================================================== *)
(** * The parser never stores the type [End Site] *)

Lemma split_ws_tokens (s : string) :
  forall inrun,
    Forall (all_chars (fun c => negb (is_space c))) (split_ws_from inrun s).
Proof.
  induction s as [|c s IH]; intros inrun; simpl.
  - repeat constructor.
  - destruct (is_space c) eqn:E.
    + destruct inrun; [apply IH|]. constructor; [constructor | apply IH].
    + specialize (IH false).
      destruct (split_ws_from false s) as [|h t].
      * repeat constructor. rewrite E. reflexivity.
      * inversion IH; subst. constructor; [|assumption].
        constructor; [rewrite E; reflexivity | assumption].
Qed.

Lemma token_is_not_End_Site (parts : list string) (i : nat) (tok : string) :
  Forall (all_chars (fun c => negb (is_space c))) parts ->
  nth_error parts i = Some tok ->
  String.eqb tok "End Site" = false.
Proof.
  intros HF Hn. apply nth_error_In in Hn.
  rewrite Forall_forall in HF. specialize (HF tok Hn).
  destruct (String.eqb tok "End Site") eqn:E; [|reflexivity].
  apply String.eqb_eq in E. subst tok.
  repeat match goal with
         | H : all_chars _ (String _ _) |- _ => inversion H; clear H; subst
         end.
  discriminate.
Qed.

Lemma preorder_push_child (nd child : node) :
  forallb not_End_Site (preorder nd) = true ->
  forallb not_End_Site (preorder child) = true ->
  forallb not_End_Site (preorder (push_child nd child)) = true.
Proof.
  intros Hn Hc. rewrite preorder_unfold in Hn. simpl in Hn.
  apply andb_true_iff in Hn as [Hn Hk].
  unfold push_child. rewrite preorder_unfold. simpl.
  rewrite flat_map_app, forallb_app. simpl. rewrite app_nil_r, Hk, Hc.
  rewrite andb_true_r. exact Hn.
Qed.

(** The type token is one token of the declaration line, so it holds no
    white space and is never the two-word [End Site] that the viewer
    tests for. *)
Lemma parsed_never_End_Site (lines : list string) (fuel : nat) :
  (forall isRoot index nd t i,
      parseNode fuel lines isRoot index = OK (nd, t, i) ->
      forallb not_End_Site (preorder nd) = true) /\
  (forall index nd0 t0 nd t i,
      forallb not_End_Site (preorder nd0) = true ->
      parseBody fuel lines index nd0 t0 = OK (nd, t, i) ->
      forallb not_End_Site (preorder nd) = true).
Proof.
  induction fuel as [|fuel [IHn IHb]].
  - split; intros; discriminate.
  - split.
    + intros isRoot index nd t i. simpl.
      destruct (nth_error lines index) as [line|]; [|discriminate].
      destruct (nth_error lines (S index)) as [brace|]; [|discriminate].
      destruct (String.eqb brace "{"); simpl; [|discriminate].
      match goal with
      | |- context [parseBody fuel lines ?j ?n ?tt] =>
          pose proof (IHb j n tt) as Hb;
          destruct (parseBody fuel lines j n tt) as [[[nd' t'] i']|e]
      end; simpl; [|discriminate].
      intros H. inversion H; subst.
      eapply Hb; [|reflexivity].
      simpl. rewrite andb_true_r. unfold not_End_Site, is_End_Site. simpl.
      destruct (nth_error (split_ws line) 0) as [tok|] eqn:Et; [|reflexivity].
      rewrite (token_is_not_End_Site _ _ _ (split_ws_tokens line false) Et).
      reflexivity.
    + intros index nd0 t0 nd t i Hnd0. simpl.
      destruct (nth_error lines index) as [line|];
        [|intros H; inversion H; subst; assumption].
      destruct (String.eqb line "}");
        [intros H; inversion H; subst; assumption|].
      destruct (startsWith line "OFFSET").
      { apply IHb. rewrite preorder_unfold in *. exact Hnd0. }
      destruct (startsWith line "CHANNELS").
      { apply IHb. rewrite preorder_unfold in *. exact Hnd0. }
      destruct (startsWith line "JOINT" || startsWith line "End Site").
      { pose proof (IHn false index) as Hc.
        destruct (parseNode fuel lines false index) as [[[c ct] i']|e];
          simpl; [|discriminate].
        apply IHb. apply preorder_push_child; [assumption|].
        eapply Hc. reflexivity. }
      apply IHb. exact Hnd0.
Qed.

(** No joint of a skeleton that [parse] returns has the type
    [End Site]: the tests [type === 'End Site'] of the viewer never hold
    on it. *)
Lemma parse_never_End_Site (content : string) (p : parsed) :
  parse content = OK p ->
  forallb not_End_Site (preorder (p_skeleton p)) = true.
Proof.
  unfold parse.
  destruct (nth_error (content_lines content) 0) as [l|]; [|discriminate].
  destruct (parseHierarchy (content_lines content) 1) as [h|] eqn:Eh.
  - intros H.
    assert (Hh : forallb not_End_Site (preorder (h_node h)) = true).
    { unfold parseHierarchy in Eh.
      destruct (parseNode (hierarchy_fuel (content_lines content))
                  (content_lines content) true 1) as [[[nd t] i]|] eqn:En;
        [|discriminate].
      simpl in Eh. inversion Eh; subst. simpl.
      eapply (proj1 (parsed_never_End_Site (content_lines content) _)).
      exact En. }
    repeat match type of H with
           | match ?x with _ => _ end = _ => destruct x; try discriminate H
           end.
    simpl in H.
    destruct (findIndex "MOTION" (content_lines content)); [|discriminate].
    destruct (parseMotion (content_lines content) (n + 1)); [|discriminate].
    simpl in H. inversion H; subst. exact Hh.
  - intros H. exfalso.
    repeat match type of H with
           | match ?x with _ => _ end = _ => destruct x; try discriminate H
           end.
Qed.

(* ================================================================== *)
(** * One frame evaluation *)


(** [updateFrame] on a frame that exists. *)
Lemma updateFrame_in_range (v : viewer) (root : node) (md : MotionData)
    (i : nat) (fd : list num) :
  skeleton v = Some root ->
  motionData v = Some md ->
  nth_error (frames md) i = Some fd ->
  updateFrame (Some (Z.of_nat i)) v
  = OK (with_bones v
          (apply_end_sites
             (updates_after (visits root THREE.identity 0 fd) [])
             (bones_after (visits root THREE.identity 0 fd) (bones v)))).
Proof.
  intros Hs Hm Hf. unfold updateFrame. rewrite Hm, Hs.
  assert (Hlt : i < List.length (frames md))
    by (apply nth_error_Some; congruence).
  unfold at_least, frame_at.
  destruct (Z.of_nat (List.length (frames md)) <=? Z.of_nat i)%Z eqn:E1;
    [apply Z.leb_le in E1; lia|].
  destruct (Z.of_nat i <? 0)%Z eqn:E2; [apply Z.ltb_lt in E2; lia|].
  rewrite Nat2Z.id, Hf, updateBone_visits. reflexivity.
Qed.

(* ================================================================== *)
(** * Joints that share a name *)



(* ================================================================== *)
(** * Computing with concrete transforms *)

Lemma set_ext (a11 a12 a13 a14 a21 a22 a23 a24 a31 a32 a33 a34 a41 a42 a43 a44
                b11 b12 b13 b14 b21 b22 b23 b24 b31 b32 b33 b34 b41 b42 b43 b44
                : num) :
  a11 = b11 -> a12 = b12 -> a13 = b13 -> a14 = b14 ->
  a21 = b21 -> a22 = b22 -> a23 = b23 -> a24 = b24 ->
  a31 = b31 -> a32 = b32 -> a33 = b33 -> a34 = b34 ->
  a41 = b41 -> a42 = b42 -> a43 = b43 -> a44 = b44 ->
  THREE.set a11 a12 a13 a14 a21 a22 a23 a24 a31 a32 a33 a34 a41 a42 a43 a44
  = THREE.set b11 b12 b13 b14 b21 b22 b23 b24 b31 b32 b33 b34 b41 b42 b43 b44.
Proof. intros. subst. reflexivity. Qed.

Ltac matrix_eq :=
  unfold THREE.multiplyMatrices, THREE.dot4, THREE.makeTranslation,
    THREE.makeRotationX, THREE.makeRotationY, THREE.makeRotationZ,
    THREE.identity, THREE.n0, THREE.n1, local_offset;
  cbn [THREE.n11 THREE.n12 THREE.n13 THREE.n14 THREE.n21 THREE.n22 THREE.n23
       THREE.n24 THREE.n31 THREE.n32 THREE.n33 THREE.n34 THREE.n41 THREE.n42
       THREE.n43 THREE.n44 nadd nmul nneg nsin ncos];
  apply set_ext; apply f_equal; try ring; try lra.

Lemma degToRad_0 : THREE.degToRad (Fin 0) = Fin 0.
Proof. unfold THREE.degToRad, nmul. f_equal. lra. Qed.

Lemma degToRad_90 : THREE.degToRad (Fin 90) = Fin (PI / 2).
Proof. unfold THREE.degToRad, nmul. f_equal. lra. Qed.

Lemma makeRotationX_0 : THREE.makeRotationX (THREE.degToRad (Fin 0)) = THREE.identity.
Proof.
  rewrite degToRad_0. unfold THREE.makeRotationX, ncos, nsin, nneg.
  rewrite cos_0, sin_0, Ropp_0. reflexivity.
Qed.

Lemma makeRotationY_0 : THREE.makeRotationY (THREE.degToRad (Fin 0)) = THREE.identity.
Proof.
  rewrite degToRad_0. unfold THREE.makeRotationY, ncos, nsin, nneg.
  rewrite cos_0, sin_0, Ropp_0. reflexivity.
Qed.

Lemma makeRotationZ_0 : THREE.makeRotationZ (THREE.degToRad (Fin 0)) = THREE.identity.
Proof.
  rewrite degToRad_0. unfold THREE.makeRotationZ, ncos, nsin, nneg.
  rewrite cos_0, sin_0, Ropp_0. reflexivity.
Qed.

Lemma makeRotationX_90 :
  THREE.makeRotationX (THREE.degToRad (Fin 90))
  = THREE.set (Fin 1) (Fin 0) (Fin 0) (Fin 0)
              (Fin 0) (Fin 0) (Fin (-1)) (Fin 0)
              (Fin 0) (Fin 1) (Fin 0) (Fin 0)
              (Fin 0) (Fin 0) (Fin 0) (Fin 1).
Proof.
  rewrite degToRad_90. unfold THREE.makeRotationX, ncos, nsin, nneg.
  rewrite cos_PI2, sin_PI2. reflexivity.
Qed.

Lemma makeRotationZ_90 :
  THREE.makeRotationZ (THREE.degToRad (Fin 90))
  = THREE.set (Fin 0) (Fin (-1)) (Fin 0) (Fin 0)
              (Fin 1) (Fin 0) (Fin 0) (Fin 0)
              (Fin 0) (Fin 0) (Fin 1) (Fin 0)
              (Fin 0) (Fin 0) (Fin 0) (Fin 1).
Proof.
  rewrite degToRad_90. unfold THREE.makeRotationZ, ncos, nsin, nneg.
  rewrite cos_PI2, sin_PI2. reflexivity.
Qed.

Lemma multiply_identity_r (m : THREE.Matrix4) :
  finite_matrix m -> THREE.multiplyMatrices m THREE.identity = m.
Proof.
  intros (a11 & a12 & a13 & a14 & a21 & a22 & a23 & a24 & a31 & a32 & a33
          & a34 & a41 & a42 & a43 & a44 & ->).
  matrix_eq.
Qed.

Lemma multiply_identity_l (m : THREE.Matrix4) :
  finite_matrix m -> THREE.multiplyMatrices THREE.identity m = m.
Proof.
  intros (a11 & a12 & a13 & a14 & a21 & a22 & a23 & a24 & a31 & a32 & a33
          & a34 & a41 & a42 & a43 & a44 & ->).
  matrix_eq.
Qed.

Lemma finite_translation (a b c : R) :
  finite_matrix (THREE.makeTranslation (Fin a) (Fin b) (Fin c)).
Proof. unfold finite_matrix. repeat eexists. Qed.

Lemma multiply_translations (a b c a' b' c' x y z : R) :
  x = (a + a')%R -> y = (b + b')%R -> z = (c + c')%R ->
  THREE.multiplyMatrices (THREE.makeTranslation (Fin a) (Fin b) (Fin c))
                         (THREE.makeTranslation (Fin a') (Fin b') (Fin c'))
  = THREE.makeTranslation (Fin x) (Fin y) (Fin z).
Proof. intros -> -> ->. matrix_eq. Qed.

(** A channel whose value is zero leaves the transform as it is. *)
Lemma apply_channel_zero (channel : string) (m : THREE.Matrix4) :
  finite_matrix m -> apply_channel channel (Fin 0) m = m.
Proof.
  intros Hm. unfold apply_channel.
  rewrite makeRotationX_0, makeRotationY_0, makeRotationZ_0.
  change (THREE.makeTranslation (Fin 0) THREE.n0 THREE.n0) with THREE.identity.
  change (THREE.makeTranslation THREE.n0 (Fin 0) THREE.n0) with THREE.identity.
  change (THREE.makeTranslation THREE.n0 THREE.n0 (Fin 0)) with THREE.identity.
  cbv zeta.
  repeat match goal with |- context [if ?b then _ else _] => destruct b end;
    repeat rewrite (multiply_identity_r m Hm); reflexivity.
Qed.

Lemma fold_channels_zero (fd : list num) (base : nat) (m : THREE.Matrix4)
    (l : list (nat * string)) :
  finite_matrix m ->
  (forall kc, In kc l -> read fd (base + fst kc) = Fin 0) ->
  fold_left
    (fun local kc => apply_channel (snd kc) (read fd (base + fst kc)) local)
    l m = m.
Proof.
  intros Hm. induction l as [|kc l IH]; intros H; [reflexivity|].
  simpl. rewrite (H kc (or_introl eq_refl)), apply_channel_zero by assumption.
  apply IH. intros x Hx. apply H. right. exact Hx.
Qed.

(** With a zero for each of its channels, the local transform of a
    joint is the translation by its offset. *)
Lemma localTransform_zero (nd : node) (fd : list num) (base : nat)
    (a b c : R) :
  offset nd = (Fin a, Fin b, Fin c) ->
  (forall k, k < channel_count nd -> read fd (base + k) = Fin 0) ->
  localTransform nd fd base = THREE.makeTranslation (Fin a) (Fin b) (Fin c).
Proof.
  intros Ho Hz. unfold localTransform. rewrite Ho.
  change (local_offset (Fin a, Fin b, Fin c))
    with (THREE.makeTranslation (Fin a) (Fin b) (Fin c)).
  apply fold_channels_zero; [apply finite_translation|].
  intros [k ch] Hin. apply in_combine_l in Hin. apply in_seq in Hin.
  apply Hz. simpl. lia.
Qed.

Lemma read_nine_zeros (i : nat) : i < 9 -> read nine_zeros i = Fin 0.
Proof.
  intros H. do 9 (destruct i as [|i]; [reflexivity|]). lia.
Qed.

Lemma parse_scenario : parse scenario = OK scenario_parsed.
Proof. vm_compute. reflexivity. Qed.

(** The visits of the scenario: three translations. *)
Lemma scenario_visits :
  visits hip_node THREE.identity 0 nine_zeros
  = [mkVisit hip_node 0 (THREE.makeTranslation (Fin 0) (Fin 0) (Fin 0));
     mkVisit head_node 6 (THREE.makeTranslation (Fin 0) (Fin 20) (Fin 0));
     mkVisit site_node 9 (THREE.makeTranslation (Fin 0) (Fin 25) (Fin 0))].
Proof.
  rewrite visits_unfold.
  rewrite (localTransform_zero hip_node nine_zeros 0 0 0 0 eq_refl)
    by (intros k Hk; apply read_nine_zeros; cbv in Hk; lia).
  change (channel_count hip_node) with 6.
  change (children hip_node) with [head_node].
  change (visits_of_children ?w ?fd [head_node] ?b)
    with (visits head_node w b fd ++ []).
  rewrite app_nil_r, multiply_identity_l by apply finite_translation.
  rewrite visits_unfold.
  rewrite (localTransform_zero head_node nine_zeros (0 + 6) 0 20 0 eq_refl)
    by (intros k Hk; apply read_nine_zeros; cbv in Hk; lia).
  rewrite (multiply_translations 0 0 0 0 20 0 0 20 0) by lra.
  change (channel_count head_node) with 3.
  change (children head_node) with [site_node].
  change (visits_of_children ?w ?fd [site_node] ?b)
    with (visits site_node w b fd ++ []).
  rewrite app_nil_r, visits_unfold.
  rewrite (localTransform_zero site_node nine_zeros (0 + 6 + 3) 0 5 0 eq_refl)
    by (intros k Hk; cbv in Hk; lia).
  rewrite (multiply_translations 0 20 0 0 5 0 0 25 0) by lra.
  reflexivity.
Qed.

Ltac rcbv :=
  cbv -[IZR Rplus Rmult Rminus Ropp Rdiv Rinv Rlt_dec Rle_dec Req_dec_T
        sin cos PI].

Lemma scenario_pose : updateFrame (Some 0%Z) scenario_viewer = OK scenario_posed.
Proof.
  change (Some 0%Z) with (Some (Z.of_nat 0)).
  rewrite (updateFrame_in_range scenario_viewer hip_node scenario_motion 0
             nine_zeros eq_refl eq_refl eq_refl).
  rewrite scenario_visits. reflexivity.
Qed.

(* ================================================================== *)
(** * Claims about the evaluation of a frame *)

(** C1.  On the scenario of the specification [parse] returns
    [totalChannels = 9], and frame 0 puts Hip at (0,0,0) and Head at
    (0,20,0).  The bone identifier [EndSite_Head] is missing from the
    bone table and from the evaluated frame: [parseNode] stores the End
    Site block with type [End] and name [Site], which no test for
    [End Site] in the viewer recognises. *)
Theorem scenario_has_no_EndSite_bone :
  parse scenario = OK scenario_parsed /\
  p_totalChannels scenario_parsed = Some 9%Z /\
  type site_node = Some "End" /\ name site_node = Some "Site" /\
  exists table,
    createBonesFromBVH (p_skeleton scenario_parsed) None origin [] = OK table /\
    scenario_viewer = with_bones (loaded scenario_parsed) table /\
    world_position table "EndSite_Head" = None /\
    updateFrame (Some 0%Z) scenario_viewer = OK scenario_posed /\
    world_position (bones scenario_posed) "Hip"
      = Some (THREE.mkVector3 (Fin 0) (Fin 0) (Fin 0)) /\
    world_position (bones scenario_posed) "Head"
      = Some (THREE.mkVector3 (Fin 0) (Fin 20) (Fin 0)) /\
    world_position (bones scenario_posed) "EndSite_Head" = None.
Proof.
  split; [exact parse_scenario|].
  split; [reflexivity|]. split; [reflexivity|]. split; [reflexivity|].
  eexists. split; [vm_compute; reflexivity|].
  split; [vm_compute; reflexivity|].
  split; [vm_compute; reflexivity|].
  split; [exact scenario_pose|].
  repeat split; vm_compute; reflexivity.
Qed.

(** [updateFrame] returns at once, leaving the viewer as it is, when no
    motion is loaded or the index is at or beyond the end of the frames. *)
Lemma updateFrame_beyond_end (v : viewer) (frameIndex : jsint) :
  match motionData v with
  | None => True
  | Some md => at_least frameIndex (List.length (frames md)) = true
  end ->
  updateFrame frameIndex v = OK v.
Proof.
  unfold updateFrame. destruct (motionData v) as [md|]; [|reflexivity].
  intros ->. reflexivity.
Qed.

(** C4.  An index below zero, or NaN, passes the range test of
    [updateFrame]; [frames[frameIndex]] is then [undefined] and reading
    the first channel value throws. *)
Theorem updateFrame_negative_index_throws :
  at_least (Some (-1)%Z) (List.length (frames scenario_motion)) = false /\
  updateFrame (Some (-1)%Z) scenario_viewer = Err TypeError /\
  at_least None (List.length (frames scenario_motion)) = false /\
  updateFrame None scenario_viewer = Err TypeError /\
  updateFrame (Some 1%Z) scenario_viewer = OK scenario_viewer.
Proof.
  repeat split; vm_compute; reflexivity.
Qed.







(* ------------------------------------------------------------------ *)
(** ** End Sites *)









Lemma apply_Zrotation (value : num) (m : THREE.Matrix4) :
  apply_channel "Zrotation" value m
  = THREE.multiplyMatrices m (THREE.makeRotationZ (THREE.degToRad value)).
Proof. reflexivity. Qed.

Lemma apply_Xrotation (value : num) (m : THREE.Matrix4) :
  apply_channel "Xrotation" value m
  = THREE.multiplyMatrices m (THREE.makeRotationX (THREE.degToRad value)).
Proof. reflexivity. Qed.

(** The visits of a joint with one child that has no children. *)
Lemma visits_leaf_child (root child : node) (fd : list num)
    (T M1 L2 M2 : THREE.Matrix4) :
  children root = [child] ->
  children child = [] ->
  THREE.multiplyMatrices T (localTransform root fd 0) = M1 ->
  localTransform child fd (channel_count root) = L2 ->
  THREE.multiplyMatrices M1 L2 = M2 ->
  visits root T 0 fd
  = [mkVisit root 0 M1; mkVisit child (channel_count root) M2].
Proof.
  intros Hr Hc H1 H2 H3.
  rewrite visits_unfold, Hr, H1.
  change (0 + channel_count root) with (channel_count root).
  change (visits_of_children M1 fd [child] (channel_count root))
    with (visits child M1 (channel_count root) fd ++ []).
  rewrite app_nil_r, visits_unfold, Hc, H2, H3. reflexivity.
Qed.




(* ------------------------------------------------------------------ *)
(** ** Channel order *)

Lemma turn_visits_XZ :
  visits (turn_root ["Xrotation"; "Zrotation"]) THREE.identity 0 quarter_turns
  = [mkVisit (turn_root ["Xrotation"; "Zrotation"]) 0
       (THREE.set (Fin 0) (Fin (-1)) (Fin 0) (Fin 0)
                  (Fin 0) (Fin 0) (Fin (-1)) (Fin 0)
                  (Fin 1) (Fin 0) (Fin 0) (Fin 0)
                  (Fin 0) (Fin 0) (Fin 0) (Fin 1));
     mkVisit turn_head 2
       (THREE.set (Fin 0) (Fin (-1)) (Fin 0) (Fin (-1))
                  (Fin 0) (Fin 0) (Fin (-1)) (Fin 0)
                  (Fin 1) (Fin 0) (Fin 0) (Fin 0)
                  (Fin 0) (Fin 0) (Fin 0) (Fin 1))].
Proof.
  apply (visits_leaf_child (turn_root ["Xrotation"; "Zrotation"]) turn_head quarter_turns
           THREE.identity
           (THREE.set (Fin 0) (Fin (-1)) (Fin 0) (Fin 0)
                      (Fin 0) (Fin 0) (Fin (-1)) (Fin 0)
                      (Fin 1) (Fin 0) (Fin 0) (Fin 0)
                      (Fin 0) (Fin 0) (Fin 0) (Fin 1))
           (THREE.makeTranslation (Fin 0) (Fin 1) (Fin 0))).
  - reflexivity.
  - reflexivity.
  - change (localTransform (turn_root ["Xrotation"; "Zrotation"]) quarter_turns 0)
      with (apply_channel "Zrotation" (Fin 90)
              (apply_channel "Xrotation" (Fin 90)
                 (THREE.makeTranslation (Fin 0) (Fin 0) (Fin 0)))).
    rewrite apply_Zrotation, apply_Xrotation, makeRotationZ_90,
      makeRotationX_90.
    change (THREE.makeTranslation (Fin 0) (Fin 0) (Fin 0)) with THREE.identity.
    rewrite (multiply_identity_l
               (THREE.set _ _ _ _ _ _ _ _ _ _ _ _ _ _ _ _))
      by (unfold finite_matrix; repeat eexists).
    match goal with
    | |- THREE.multiplyMatrices THREE.identity ?m = ?r =>
        assert (E : m = r) by matrix_eq; rewrite E
    end.
    apply multiply_identity_l. unfold finite_matrix. repeat eexists.
  - apply (localTransform_zero turn_head quarter_turns _ 0 1 0 eq_refl).
    intros k Hk. cbv in Hk. assert (k = 0) as -> by lia. reflexivity.
  - matrix_eq.
Qed.

Lemma turn_visits_ZX :
  visits (turn_root ["Zrotation"; "Xrotation"]) THREE.identity 0 quarter_turns
  = [mkVisit (turn_root ["Zrotation"; "Xrotation"]) 0
       (THREE.set (Fin 0) (Fin 0) (Fin 1) (Fin 0)
                  (Fin 1) (Fin 0) (Fin 0) (Fin 0)
                  (Fin 0) (Fin 1) (Fin 0) (Fin 0)
                  (Fin 0) (Fin 0) (Fin 0) (Fin 1));
     mkVisit turn_head 2
       (THREE.set (Fin 0) (Fin 0) (Fin 1) (Fin 0)
                  (Fin 1) (Fin 0) (Fin 0) (Fin 0)
                  (Fin 0) (Fin 1) (Fin 0) (Fin 1)
                  (Fin 0) (Fin 0) (Fin 0) (Fin 1))].
Proof.
  apply (visits_leaf_child (turn_root ["Zrotation"; "Xrotation"]) turn_head quarter_turns
           THREE.identity
           (THREE.set (Fin 0) (Fin 0) (Fin 1) (Fin 0)
                      (Fin 1) (Fin 0) (Fin 0) (Fin 0)
                      (Fin 0) (Fin 1) (Fin 0) (Fin 0)
                      (Fin 0) (Fin 0) (Fin 0) (Fin 1))
           (THREE.makeTranslation (Fin 0) (Fin 1) (Fin 0))).
  - reflexivity.
  - reflexivity.
  - change (localTransform (turn_root ["Zrotation"; "Xrotation"]) quarter_turns 0)
      with (apply_channel "Xrotation" (Fin 90)
              (apply_channel "Zrotation" (Fin 90)
                 (THREE.makeTranslation (Fin 0) (Fin 0) (Fin 0)))).
    rewrite apply_Zrotation, apply_Xrotation, makeRotationZ_90,
      makeRotationX_90.
    change (THREE.makeTranslation (Fin 0) (Fin 0) (Fin 0)) with THREE.identity.
    rewrite (multiply_identity_l
               (THREE.set _ _ _ _ _ _ _ _ _ _ _ _ _ _ _ _))
      by (unfold finite_matrix; repeat eexists).
    match goal with
    | |- THREE.multiplyMatrices THREE.identity ?m = ?r =>
        assert (E : m = r) by matrix_eq; rewrite E
    end.
    apply multiply_identity_l. unfold finite_matrix. repeat eexists.
  - apply (localTransform_zero turn_head quarter_turns _ 0 1 0 eq_refl).
    intros k Hk. cbv in Hk. assert (k = 0) as -> by lia. reflexivity.
  - matrix_eq.
Qed.

(** C7.  A root with the channels [Xrotation Zrotation], a head one unit
    up, and the frame 90 90 0: the head stands at (-1, 0, 0).  With the
    two channels of the root swapped and the same frame it stands at
    (0, 0, 1).  The channels are composed in the order declared. *)
Theorem channel_order_matters :
  exists tableXZ tableZX vXZ vZX,
    createBonesFromBVH (turn_root ["Xrotation"; "Zrotation"]) None origin []
    = OK tableXZ /\
    createBonesFromBVH (turn_root ["Zrotation"; "Xrotation"]) None origin []
    = OK tableZX /\
    updateFrame (Some 0%Z) (turn_viewer ["Xrotation"; "Zrotation"] tableXZ)
    = OK vXZ /\
    updateFrame (Some 0%Z) (turn_viewer ["Zrotation"; "Xrotation"] tableZX)
    = OK vZX /\
    world_position (bones vXZ) "Head"
    = Some (THREE.mkVector3 (Fin (-1)) (Fin 0) (Fin 0)) /\
    world_position (bones vZX) "Head"
    = Some (THREE.mkVector3 (Fin 0) (Fin 0) (Fin 1)) /\
    world_position (bones vXZ) "Head" <> world_position (bones vZX) "Head".
Proof.
  do 4 eexists.
  split; [vm_compute; reflexivity|].
  split; [vm_compute; reflexivity|].
  split.
  { change (Some 0%Z) with (Some (Z.of_nat 0)).
    apply (updateFrame_in_range _ (turn_root ["Xrotation"; "Zrotation"])
             (mkMotionData 1 (Fin 1) [quarter_turns]) 0 quarter_turns);
      reflexivity. }
  split.
  { change (Some 0%Z) with (Some (Z.of_nat 0)).
    apply (updateFrame_in_range _ (turn_root ["Zrotation"; "Xrotation"])
             (mkMotionData 1 (Fin 1) [quarter_turns]) 0 quarter_turns);
      reflexivity. }
  unfold with_bones. cbn [bones turn_viewer].
  rewrite turn_visits_XZ, turn_visits_ZX.
  split; [vm_compute; reflexivity|].
  split; [vm_compute; reflexivity|].
  match goal with
  | |- ?a <> ?b =>
      replace a with (Some (THREE.mkVector3 (Fin (-1)) (Fin 0) (Fin 0)))
        by (vm_compute; reflexivity);
      replace b with (Some (THREE.mkVector3 (Fin 0) (Fin 0) (Fin 1)))
        by (vm_compute; reflexivity)
  end.
  intros H. inversion H. lra.
Qed.

(* ================================================================== *)
(** * Further instances *)

(** The skeleton of the scenario has no joint of type [End Site]. *)
Lemma parse_never_End_Site_witness :
  forallb not_End_Site (preorder (p_skeleton scenario_parsed)) = true.
Proof.
  apply (parse_never_End_Site scenario scenario_parsed). exact parse_scenario.
Defined.

(** Frame 1 of the scenario, which has one frame, is ignored. *)
Lemma updateFrame_beyond_end_witness :
  updateFrame (Some 1%Z) scenario_viewer = OK scenario_viewer.
Proof.
  apply (updateFrame_beyond_end scenario_viewer (Some 1%Z)). reflexivity.
Defined.

(* ================================================================== *)
(** * Further properties of the parser *)

(** The errors of [parseNode] and of its loop, and the end of the lines
    as an upper bound of the index they return. *)
Lemma parse_outcomes (lines : list string) (fuel : nat) :
  (forall isRoot index,
      (forall e, parseNode fuel lines isRoot index = Err e ->
                 In e [UnexpectedEndOfFile; UnexpectedEndAfterNode;
                       ExpectedBrace; OutOfFuel]) /\
      (forall nd t i, parseNode fuel lines isRoot index = OK (nd, t, i) ->
                      i <= List.length lines /\
                      nth_error lines (S index) = Some "{")) /\
  (forall index nd0 t0,
      (forall e, parseBody fuel lines index nd0 t0 = Err e ->
                 In e [UnexpectedEndOfFile; UnexpectedEndAfterNode;
                       ExpectedBrace; OutOfFuel]) /\
      (forall nd t i, index <= List.length lines ->
                      parseBody fuel lines index nd0 t0 = OK (nd, t, i) ->
                      i <= List.length lines)).
Proof.
  induction fuel as [|fuel [IHn IHb]].
  - split; intros; (split; [intros e H; inversion H; simpl; tauto
                            | intros; discriminate]).
  - split.
    + intros isRoot index. simpl.
      destruct (nth_error lines index) as [line|] eqn:El; simpl;
        [|split; [intros e H; inversion H; simpl; tauto
                 | intros ? ? ? H; discriminate H]].
      destruct (nth_error lines (S index)) as [brace|] eqn:Eb; simpl;
        [|split; [intros e H; inversion H; simpl; tauto
                 | intros ? ? ? H; discriminate H]].
      destruct (String.eqb brace "{") eqn:Ebr; simpl;
        [|split; [intros e H; inversion H; simpl; tauto
                 | intros ? ? ? H; discriminate H]].
      apply String.eqb_eq in Ebr. subst brace.
      assert (Hlen : S index < List.length lines)
        by (apply nth_error_Some; congruence).
      match goal with
      | |- context [parseBody fuel lines ?j ?n ?tt] =>
          destruct (IHb j n tt) as [He Hok];
          destruct (parseBody fuel lines j n tt) as [[[nd' t'] i']|e0] eqn:Ep
      end; simpl.
      * split; [intros e H; discriminate H|].
        intros nd t i H. inversion H; subst. split; [|reflexivity].
        specialize (Hok _ _ _ ltac:(lia) eq_refl).
        destruct (nth_error lines i') as [l|] eqn:Ei; [|exact Hok].
        destruct (String.eqb l "}"); [|exact Hok].
        assert (i' < List.length lines) by (apply nth_error_Some; congruence).
        lia.
      * split; [|intros ? ? ? H; discriminate H].
        intros e H. inversion H; subst. apply He. reflexivity.
    + intros index nd0 t0. simpl.
      destruct (nth_error lines index) as [line|] eqn:El;
        [|split; [intros e H; discriminate H
                 | intros ? ? ? Hi H; inversion H; subst; exact Hi]].
      assert (Hlen : index < List.length lines)
        by (apply nth_error_Some; congruence).
      destruct (String.eqb line "}");
        [split; [intros e H; discriminate H
                | intros ? ? ? Hi H; inversion H; subst; exact Hi]|].
      destruct (startsWith line "OFFSET").
      { match goal with
        | |- context [parseBody fuel lines ?j ?n ?tt] =>
            destruct (IHb j n tt) as [He Hok]
        end.
        split; [exact He | intros ? ? ? _ H; eapply Hok; [lia | exact H]]. }
      destruct (startsWith line "CHANNELS").
      { match goal with
        | |- context [parseBody fuel lines ?j ?n ?tt] =>
            destruct (IHb j n tt) as [He Hok]
        end.
        split; [exact He | intros ? ? ? _ H; eapply Hok; [lia | exact H]]. }
      destruct (startsWith line "JOINT" || startsWith line "End Site").
      { destruct (IHn false index) as [He Hok].
        destruct (parseNode fuel lines false index) as [[[c ct] i']|e0] eqn:Ec;
          simpl.
        - destruct (Hok _ _ _ eq_refl) as [Hi' _].
          match goal with
          | |- context [parseBody fuel lines ?j ?n ?tt] =>
              destruct (IHb j n tt) as [He' Hok']
          end.
          split; [exact He'
                 | intros ? ? ? _ H; eapply Hok'; [exact Hi' | exact H]].
        - split; [|intros ? ? ? _ H; discriminate H].
          intros e H. inversion H; subst. apply He. reflexivity. }
      match goal with
      | |- context [parseBody fuel lines ?j ?n ?tt] =>
          destruct (IHb j n tt) as [He Hok]
      end.
      split; [exact He | intros ? ? ? _ H; eapply Hok; [lia | exact H]].
Qed.

Lemma parseHierarchy_outcomes (lines : list string) (start : nat) :
  (forall e, parseHierarchy lines start = Err e ->
             In e [UnexpectedEndOfFile; UnexpectedEndAfterNode; ExpectedBrace]) /\
  (forall h, parseHierarchy lines start = OK h ->
             start + 2 <= endIndex h /\ endIndex h <= List.length lines /\
             nth_error lines (S start) = Some "{").
Proof.
  unfold parseHierarchy.
  pose proof (parseNode_total lines true start) as Htot.
  destruct (proj1 (parse_outcomes lines (hierarchy_fuel lines)) true start)
    as [He Hok].
  destruct (parseNode (hierarchy_fuel lines) lines true start)
    as [[[nd t] i]|e0] eqn:E; simpl.
  - split; [intros e H; discriminate H|].
    intros h H. inversion H; subst. simpl.
    destruct (Hok _ _ _ eq_refl) as [Hi Hb].
    assert (Hp : start + 2 <= i).
    { eapply (proj1 (parse_progress lines (hierarchy_fuel lines)) true start);
        [unfold hierarchy_fuel; lia | exact E]. }
    auto.
  - split; [|intros h H; discriminate H].
    intros e H. inversion H; subst.
    destruct (He e eq_refl) as [<-|[<-|[<-|[<-|[]]]]]; simpl; auto;
      exfalso; apply Htot; reflexivity.
Qed.

(** The index at which [parseHierarchy] stops lies behind the two
    header lines of the root, of which the second is the opening brace,
    and never beyond the end of the lines. *)
Theorem hierarchy_end_index (lines : list string) (start : nat) (h : hierarchy) :
  parseHierarchy lines start = OK h ->
  start + 2 <= endIndex h /\ endIndex h <= List.length lines /\
  nth_error lines (S start) = Some "{".
Proof. apply parseHierarchy_outcomes. Qed.

Lemma hierarchy_end_index_witness :
  1 + 2 <= endIndex (mkHierarchy hip_node (Some 9%Z) 15) /\
  endIndex (mkHierarchy hip_node (Some 9%Z) 15)
  <= List.length (content_lines scenario) /\
  nth_error (content_lines scenario) (S 1) = Some "{".
Proof.
  apply (hierarchy_end_index (content_lines scenario) 1). vm_compute. reflexivity.
Defined.






(** Whatever follows the closing brace of the root block, a second ROOT
    block included, has no influence on the hierarchy that is returned. *)
Theorem text_after_root_is_ignored (t : hier) (rest rest' : list string) :
  valid_root t = true ->
  parseHierarchy ("HIERARCHY" :: render t ++ rest) 1
  = parseHierarchy ("HIERARCHY" :: render t ++ rest') 1 /\
  exists h,
    parseHierarchy ("HIERARCHY" :: render t ++ rest) 1 = OK h /\
    endIndex h = 1 + List.length (render t).
Proof.
  intros Hv.
  rewrite (parseHierarchy_valid _ rest t Hv eq_refl).
  rewrite (parseHierarchy_valid _ rest' t Hv eq_refl).
  split; [reflexivity|]. eexists. split; reflexivity.
Qed.

Lemma text_after_root_is_ignored_witness :
  parseHierarchy ("HIERARCHY" :: render scenario_hier ++ second_root_lines) 1
  = parseHierarchy ("HIERARCHY" :: render scenario_hier ++ scenario_motion_lines) 1
  /\
  exists h,
    parseHierarchy ("HIERARCHY" :: render scenario_hier ++ second_root_lines) 1
    = OK h /\
    endIndex h = 1 + List.length (render scenario_hier).
Proof.
  apply (text_after_root_is_ignored scenario_hier). vm_compute. reflexivity.
Defined.

(* ================================================================== *)
(** * The frames read by [parseMotion] *)

Lemma startsWith_cons_rest (l p : string) (c : ascii) :
  startsWith l (String c p) = true ->
  exists r, l = String c r /\ startsWith r p = true.
Proof.
  unfold startsWith. destruct l as [|a r]; simpl; [discriminate|].
  destruct (ascii_dec c a) as [->|]; [eauto | discriminate].
Qed.

Lemma span_all_id (p : ascii -> bool) (s : string) :
  all_chars p s -> span p s = (s, EmptyString).
Proof.
  induction 1 as [|c s Hc Hs IH]; simpl; [reflexivity|].
  rewrite Hc, IH. reflexivity.
Qed.

Lemma digits_not_hex_prefix (s p : string) :
  all_chars is_digit s -> (p = "0x" \/ p = "0X") -> startsWith s p = false.
Proof.
  intros Ha Hp. destruct (startsWith s p) eqn:E; [|reflexivity]. exfalso.
  destruct Hp as [-> | ->];
    apply startsWith_cons_rest in E; destruct E as (r & -> & E);
    apply startsWith_cons in E; destruct E as (r' & ->);
    inversion Ha as [|? ? _ Hr]; subst; inversion Hr as [|? ? Hx _]; subst;
    vm_compute in Hx; discriminate Hx.
Qed.

(** [parseInt] on a non-empty run of decimal digits. *)
Lemma parseInt_digits (c : ascii) (r : string) :
  all_chars is_digit (String c r) ->
  parseInt (String c r) = Some (digits (String c r)) /\
  (0 <= digits (String c r))%Z.
Proof.
  intros Ha. split.
  - assert (Hc : is_digit c = true) by (inversion Ha; assumption).
    assert (Hs : is_space c = false).
    { destruct (is_space c) eqn:E; [|reflexivity].
      destruct c as [[] [] [] [] [] [] [] []]; vm_compute in Hc, E;
        congruence. }
    assert (Hg : sign (String c r) = (false, String c r)).
    { destruct c as [[] [] [] [] [] [] [] []]; vm_compute in Hc;
        try discriminate Hc; reflexivity. }
    unfold parseInt. simpl trimStart. rewrite Hs, Hg.
    rewrite (digits_not_hex_prefix _ "0x" Ha (or_introl eq_refl)).
    rewrite (digits_not_hex_prefix _ "0X" Ha (or_intror eq_refl)).
    simpl orb. cbv iota. rewrite (span_all_id _ _ Ha).
    f_equal. apply Z.mul_1_l.
  - unfold digits. apply digits_from_nonneg; [exact Ha | lia].
Qed.

Lemma match_here_all (lit : string) (cls : ascii -> bool) (s cap : string) :
  match_here lit cls s = Some cap ->
  all_chars cls cap /\ cap <> EmptyString.
Proof.
  unfold match_here. destruct (startsWith s lit); [|discriminate].
  pose proof (span_all cls (trimStart (drop (String.length lit) s))) as Ha.
  destruct (span cls (trimStart (drop (String.length lit) s))) as [a b].
  simpl in Ha. destruct a as [|c r]; [discriminate|].
  intros H. inversion H; subst. split; [exact Ha | discriminate].
Qed.

Lemma regex_search_all (lit : string) (cls : ascii -> bool) (s cap : string) :
  regex_search lit cls s = Some cap ->
  all_chars cls cap /\ cap <> EmptyString.
Proof.
  induction s as [|a s IH]; simpl.
  - destruct (match_here lit cls EmptyString) eqn:E; [|discriminate].
    intros H. inversion H; subst. eapply match_here_all; eassumption.
  - destruct (match_here lit cls (String a s)) eqn:E.
    + intros H. inversion H; subst. eapply match_here_all; eassumption.
    + exact IH.
Qed.

Lemma readFrames_firstn (N : Z) (rest : list string) :
  forall i : Z,
    readFrames (Some N) i rest
    = map (fun line => map parseFloat (split_ws line))
          (firstn (Z.to_nat (N - i)) rest).
Proof.
  induction rest as [|line rest IH]; intros i.
  - rewrite firstn_nil. reflexivity.
  - simpl readFrames. unfold below.
    destruct (i <? N)%Z eqn:E.
    + apply Z.ltb_lt in E.
      replace (Z.to_nat (N - i)) with (S (Z.to_nat (N - (i + 1)))) by lia.
      simpl. rewrite IH. reflexivity.
    + apply Z.ltb_ge in E.
      replace (Z.to_nat (N - i)) with 0 by lia. reflexivity.
Qed.

(** The count captured on the Frames line is a run of digits, so the
    declared number of frames is a natural number, never NaN and never
    negative.  The frames are the lines that follow the Frame Time line,
    each split on white space and read by [parseFloat], up to the
    declared number; lines beyond it are ignored, and when fewer lines
    are left the frame count is the number of lines there are. *)
Theorem motion_frames_are_a_prefix
  (lines : list string) (start : nat) (md : MotionData) :
  parseMotion lines start = OK md ->
  exists (framesLine cap : string) (N : Z),
    nth_error lines start = Some framesLine /\
    match_frames framesLine = Some cap /\
    parseInt cap = Some N /\ (0 <= N)%Z /\
    frames md
    = map (fun line => map parseFloat (split_ws line))
          (firstn (Z.to_nat N) (skipn (start + 2) lines)) /\
    frameCount md = List.length (frames md) /\
    frameCount md = Nat.min (Z.to_nat N) (List.length lines - (start + 2)).
Proof.
  unfold parseMotion.
  destruct (nth_error lines start) as [fl|] eqn:Efl; [|discriminate].
  destruct (match_frames fl) as [cap|] eqn:Ecap; [|discriminate].
  destruct (nth_error lines (S start)) as [tl|]; [|discriminate].
  destruct (match_frame_time tl) as [tm|]; [|discriminate].
  intros H. injection H as <-. cbn [frames frameCount].
  destruct (regex_search_all _ _ _ _ Ecap) as [Ha Hne].
  destruct cap as [|c r]; [congruence|].
  destruct (parseInt_digits c r Ha) as [Hp Hn].
  exists fl, (String c r), (digits (String c r)).
  rewrite Hp. rewrite readFrames_firstn. rewrite Z.sub_0_r.
  replace (start + 2) with (S (S start)) by lia.
  repeat split; try assumption; try reflexivity.
  rewrite length_map, length_firstn.
  exact (f_equal (Nat.min _) (length_skipn (S (S start)) lines)).
Qed.

(** Four frames declared, one present. *)
Lemma motion_frames_are_a_prefix_witness :
  exists md,
    parseMotion (content_lines truncated_motion) 7 = OK md /\
    exists (framesLine cap : string) (N : Z),
      nth_error (content_lines truncated_motion) 7 = Some framesLine /\
      match_frames framesLine = Some cap /\
      parseInt cap = Some N /\ (0 <= N)%Z /\
      frames md
      = map (fun line => map parseFloat (split_ws line))
            (firstn (Z.to_nat N) (skipn (7 + 2) (content_lines truncated_motion)))
      /\
      frameCount md = List.length (frames md) /\
      frameCount md
      = Nat.min (Z.to_nat N)
                (List.length (content_lines truncated_motion) - (7 + 2)).
Proof.
  eexists. split; [vm_compute; reflexivity|].
  apply (motion_frames_are_a_prefix (content_lines truncated_motion) 7).
  vm_compute. reflexivity.
Defined.

(* ================================================================== *)
(** * What a frame evaluation writes *)

Lemma Map_set_fixed (m : Map bone) (k : key) (b : bone) (p : THREE.Vector3) :
  Map_get m k = Some b ->
  map fixed_part (Map_set m k (move_sphere b p)) = map fixed_part m.
Proof.
  induction m as [|[k0 b0] m IH]; simpl; [discriminate|].
  destruct (key_eqb k0 k) eqn:E; simpl.
  - intros H. inversion H; subst. reflexivity.
  - intros H. rewrite (IH H). reflexivity.
Qed.

Lemma move_bone_fixed (bones : Map bone) (k : key) (p : THREE.Vector3) :
  map fixed_part (move_bone bones k p) = map fixed_part bones.
Proof.
  unfold move_bone. destruct (Map_get bones k) as [b|] eqn:E; [|reflexivity].
  apply Map_set_fixed. exact E.
Qed.

Lemma apply_moves_fixed (ms : list (key * THREE.Vector3)) :
  forall bones, map fixed_part (apply_moves ms bones) = map fixed_part bones.
Proof.
  induction ms as [|m ms IH]; intros bones; [reflexivity|].
  unfold apply_moves. simpl fold_left. fold (apply_moves ms).
  rewrite IH. apply move_bone_fixed.
Qed.

Lemma apply_moves_app (a b : list (key * THREE.Vector3)) (bones : Map bone) :
  apply_moves (a ++ b) bones = apply_moves b (apply_moves a bones).
Proof. apply fold_left_app. Qed.

(** Whatever the frame data, a traversal that returns has only moved
    spheres. *)
Lemma updateBone_moves (nd : node) :
  forall T fd st st',
    updateBone nd T fd st = OK st' ->
    exists ms, st_bones st' = apply_moves ms (st_bones st).
Proof.
  induction nd as [nm ty off chs kids IH] using node_rect'.
  intros T fd st st'. rewrite updateBone_unfold.
  destruct (apply_channels chs fd (channelIndex st) (local_offset off))
    as [[local idx]|e]; simpl bind; [|discriminate].
  cbv beta iota zeta.
  set (world := THREE.multiplyMatrices T local).
  set (pos := THREE.setFromMatrixPosition world).
  assert (Hloop : forall ks st0 st1,
    Forall (fun k => forall T fd st st',
              updateBone k T fd st = OK st' ->
              exists ms, st_bones st' = apply_moves ms (st_bones st)) ks ->
    updateBones world fd ks st0 = OK st1 ->
    exists ms, st_bones st1 = apply_moves ms (st_bones st0)).
  { clear. induction ks as [|k ks IHks]; intros st0 st1 HF.
    - simpl. intros H. inversion H; subst. exists []. reflexivity.
    - inversion HF as [|? ? Hk HF']; subst. simpl updateBones.
      destruct (updateBone k world fd st0) as [st2|e] eqn:E; simpl bind;
        [|discriminate].
      intros H. destruct (Hk _ _ _ _ E) as [m1 H1].
      destruct (IHks _ _ HF' H) as [m2 H2].
      exists (m1 ++ m2). rewrite apply_moves_app, <- H1. exact H2. }
  intros H. destruct (Hloop kids _ _ IH H) as [ms Hms].
  exists ((nm, pos) :: ms). rewrite Hms. reflexivity.
Qed.

Lemma updateFrame_keeps (frameIndex : jsint) (v v' : viewer) :
  updateFrame frameIndex v = OK v' ->
  skeleton v' = skeleton v /\ motionData v' = motionData v /\
  totalChannels v' = totalChannels v /\ skeletonScale v' = skeletonScale v /\
  group_scale v' = group_scale v /\ group_position v' = group_position v /\
  map fixed_part (bones v') = map fixed_part (bones v).
Proof.
  unfold updateFrame.
  destruct (motionData v) as [md|] eqn:Em;
    [|intros H; inversion H; subst; rewrite Em; repeat split].
  destruct (at_least frameIndex (List.length (frames md)));
    [intros H; inversion H; subst; rewrite Em; repeat split|].
  destruct (skeleton v) as [root|] eqn:Es; [|discriminate].
  destruct (updateBone root THREE.identity (frame_at (frames md) frameIndex)
              (mkState 0 (bones v) [])) as [st|e] eqn:E; simpl bind;
    [|discriminate].
  intros H. inversion H; subst. unfold with_bones. cbn.
  repeat split; try assumption.
  destruct (updateBone_moves _ _ _ _ _ E) as [ms Hms].
  change (map fixed_part (apply_moves (endSiteUpdates st) (st_bones st))
          = map fixed_part (bones v)).
  rewrite apply_moves_fixed, Hms, apply_moves_fixed. reflexivity.
Qed.

(** A call of [updateFrame] that returns has changed nothing but the
    positions of spheres: the skeleton, the motion, the scale and the
    group are as before, and the bone table has the same keys in the
    same order, each with the joint, the channels and the rest position
    it had. *)
Theorem updateFrame_moves_only_spheres
  (frameIndex : jsint) (v v' : viewer) :
  updateFrame frameIndex v = OK v' ->
  skeleton v' = skeleton v /\ motionData v' = motionData v /\
  totalChannels v' = totalChannels v /\ skeletonScale v' = skeletonScale v /\
  group_scale v' = group_scale v /\ group_position v' = group_position v /\
  map fixed_part (bones v') = map fixed_part (bones v).
Proof. apply updateFrame_keeps. Qed.

Lemma updateFrame_moves_only_spheres_witness :
  skeleton scenario_posed = skeleton scenario_viewer /\
  motionData scenario_posed = motionData scenario_viewer /\
  totalChannels scenario_posed = totalChannels scenario_viewer /\
  skeletonScale scenario_posed = skeletonScale scenario_viewer /\
  group_scale scenario_posed = group_scale scenario_viewer /\
  group_position scenario_posed = group_position scenario_viewer /\
  map fixed_part (bones scenario_posed) = map fixed_part (bones scenario_viewer).
Proof.
  apply (updateFrame_moves_only_spheres (Some 0%Z)). exact scenario_pose.
Defined.

(* ------------------------------------------------------------------ *)
(** ** A frame does not depend on the pose before it *)













(* ================================================================== *)
(** * Building the bone table *)

Lemma createBones_returns (nd : node) :
  forall parent pos bones,
    parent <> None \/ is_End_Site nd = false ->
    exists bones', createBonesFromBVH nd parent pos bones = OK bones'.
Proof.
  induction nd as [nm ty off chs kids IH] using node_rect'.
  intros parent pos bones Hp. rewrite createBones_unfold. cbv zeta.
  set (nd := mkNode nm ty off chs kids) in *.
  assert (Hloop : forall ks b,
    Forall (fun k => forall parent pos bones,
              parent <> None \/ is_End_Site k = false ->
              exists bones', createBonesFromBVH k parent pos bones = OK bones') ks ->
    exists b', createBonesOfChildren nd (add_offset pos off) ks b = OK b').
  { clear. induction ks as [|k ks IHks]; intros b HF; [eexists; reflexivity|].
    inversion HF as [|? ? Hk HF']; subst. simpl.
    destruct (Hk (Some nd) (add_offset pos off) b) as [b1 H1];
      [left; discriminate|].
    rewrite H1. simpl. apply IHks. exact HF'. }
  destruct (is_End_Site nd) eqn:E.
  - rewrite andb_false_r. destruct parent as [p|].
    + simpl bind. apply Hloop. exact IH.
    + destruct Hp as [Hp|Hp]; congruence.
  - rewrite andb_true_r. destruct (0 <? List.length chs)%nat;
      simpl bind; apply Hloop; exact IH.
Qed.

Lemma createBones_throws (nd : node) (pos : THREE.Vector3) (bones : Map bone) :
  is_End_Site nd = true ->
  createBonesFromBVH nd None pos bones = Err TypeError.
Proof.
  destruct nd as [nm ty off chs kids]. intros H.
  rewrite createBones_unfold. cbv zeta. rewrite H, andb_false_r. reflexivity.
Qed.

(** [createBonesFromBVH] throws in one case only: it is called with no
    parent on a joint of type [End Site], whose identifier is built from
    [parentNode.name].  In every other case it returns. *)
Theorem createBones_throws_only_on_End_Site_root
  (nd : node) (parent : option node) (pos : THREE.Vector3) (bones : Map bone) :
  match createBonesFromBVH nd parent pos bones with
  | OK _ => parent <> None \/ is_End_Site nd = false
  | Err e => e = TypeError /\ parent = None /\ is_End_Site nd = true
  end.
Proof.
  destruct parent as [p|].
  - destruct (createBones_returns nd (Some p) pos bones) as [b ->];
      left; discriminate.
  - destruct (is_End_Site nd) eqn:E.
    + rewrite (createBones_throws nd pos bones E). auto.
    + destruct (createBones_returns nd None pos bones) as [b ->]; auto.
Qed.

Lemma In_Map_set {V : Type} (m : Map V) (k : key) (v : V) (kv : key * V) :
  In kv (Map_set m k v) -> In kv m \/ (fst kv = k /\ snd kv = v).
Proof.
  induction m as [|[k0 v0] m IH]; simpl.
  - intros [<-|[]]. right. auto.
  - destruct (key_eqb k0 k) eqn:E; simpl.
    + intros [<-|H]; [|auto]. apply key_eqb_eq in E. right. auto.
    + intros [<-|H]; [auto|]. destruct (IH H); auto.
Qed.

Lemma entries_set_le {V : Type} (m : Map V) (k k' : key) (v : V) :
  entries m k' <= 1 -> entries (Map_set m k v) k' <= 1.
Proof.
  intros H. rewrite entries_set.
  destruct (key_eqb k k'); [|exact H].
  destruct (entries m k') as [|[|n]]; simpl; lia.
Qed.

(** The entries that the call on [nd] may add: one under the joint's
    name for a joint with channels, one under [EndSite_<parent name>]
    for a joint of type [End Site]. *)
Lemma createBones_adds (nd : node) :
  forall parent pos bones bones',
    createBonesFromBVH nd parent pos bones = OK bones' ->
    (forall k, entries bones k <= 1 -> entries bones' k <= 1) /\
    forall kb, In kb bones' ->
      In kb bones \/
      (sphere (snd kb) = position (snd kb) /\
       In (bone_node (snd kb)) (preorder nd) /\
       ((is_End_Site (bone_node (snd kb)) = false /\
         fst kb = name (bone_node (snd kb)) /\
         bone_channels (snd kb) = channels (bone_node (snd kb)) /\
         channels (bone_node (snd kb)) <> []) \/
        (is_End_Site (bone_node (snd kb)) = true /\
         bone_channels (snd kb) = [] /\
         exists p, fst kb = endSiteName (name p) /\
                   ((parent = Some p /\ bone_node (snd kb) = nd) \/
                    (In p (preorder nd) /\
                     In (bone_node (snd kb)) (children p)))))).
Proof.
  induction nd as [nm ty off chs kids IH] using node_rect'.
  intros parent pos bones bones'. rewrite createBones_unfold. cbv zeta.
  set (nd := mkNode nm ty off chs kids) in *.
  set (pos' := add_offset pos off).
  assert (Hloop : forall ks b b',
    Forall (fun k => forall parent pos bones bones',
      createBonesFromBVH k parent pos bones = OK bones' ->
      (forall k0, entries bones k0 <= 1 -> entries bones' k0 <= 1) /\
      forall kb, In kb bones' ->
        In kb bones \/
        (sphere (snd kb) = position (snd kb) /\
         In (bone_node (snd kb)) (preorder k) /\
         ((is_End_Site (bone_node (snd kb)) = false /\
           fst kb = name (bone_node (snd kb)) /\
           bone_channels (snd kb) = channels (bone_node (snd kb)) /\
           channels (bone_node (snd kb)) <> []) \/
          (is_End_Site (bone_node (snd kb)) = true /\
           bone_channels (snd kb) = [] /\
           exists p, fst kb = endSiteName (name p) /\
                     ((parent = Some p /\ bone_node (snd kb) = k) \/
                      (In p (preorder k) /\
                       In (bone_node (snd kb)) (children p))))))) ks ->
    createBonesOfChildren nd pos' ks b = OK b' ->
    (forall k0, entries b k0 <= 1 -> entries b' k0 <= 1) /\
    forall kb, In kb b' ->
      In kb b \/
      (sphere (snd kb) = position (snd kb) /\
       In (bone_node (snd kb)) (flat_map preorder ks) /\
       ((is_End_Site (bone_node (snd kb)) = false /\
         fst kb = name (bone_node (snd kb)) /\
         bone_channels (snd kb) = channels (bone_node (snd kb)) /\
         channels (bone_node (snd kb)) <> []) \/
        (is_End_Site (bone_node (snd kb)) = true /\
         bone_channels (snd kb) = [] /\
         exists p, fst kb = endSiteName (name p) /\
                   ((p = nd /\ In (bone_node (snd kb)) ks) \/
                    (In p (flat_map preorder ks) /\
                     In (bone_node (snd kb)) (children p))))))).
  { clear. induction ks as [|k ks IHks]; intros b b' HF.
    - simpl. intros H. inversion H; subst. split; auto.
    - inversion HF as [|? ? Hk HF']; subst. simpl createBonesOfChildren.
      destruct (createBonesFromBVH k (Some nd) pos' b) as [b1|e] eqn:E;
        simpl bind; [|discriminate].
      intros H. destruct (Hk _ _ _ _ E) as [Hk1 Hk2].
      destruct (IHks _ _ HF' H) as [Hr1 Hr2].
      split; [intros k0 H0; apply Hr1, Hk1, H0|].
      intros kb Hin. simpl flat_map.
      destruct (Hr2 kb Hin) as [Hb1|(Hs & Hn & Hc)].
      + destruct (Hk2 kb Hb1) as [Hb|(Hs & Hn & Hc)]; [left; exact Hb|].
        right. split; [exact Hs|]. split; [apply in_or_app; left; exact Hn|].
        destruct Hc as [Hj|(He & Hch & p & Hp & Hq)]; [left; exact Hj|].
        right. split; [exact He|]. split; [exact Hch|]. exists p.
        split; [exact Hp|].
        destruct Hq as [[Hq1 Hq2]|[Hq1 Hq2]].
        * left. injection Hq1 as <-. split; [reflexivity|].
          left. symmetry. exact Hq2.
        * right. split; [apply in_or_app; left; exact Hq1 | exact Hq2].
      + right. split; [exact Hs|]. split; [apply in_or_app; right; exact Hn|].
        destruct Hc as [Hj|(He & Hch & p & Hp & Hq)]; [left; exact Hj|].
        right. split; [exact He|]. split; [exact Hch|]. exists p.
        split; [exact Hp|].
        destruct Hq as [[Hq1 Hq2]|[Hq1 Hq2]].
        * left. split; [exact Hq1 | right; exact Hq2].
        * right. split; [apply in_or_app; right; exact Hq1 | exact Hq2]. }
  assert (Hkids : forall b b',
    createBonesOfChildren nd pos' kids b = OK b' ->
    (forall k0, entries b k0 <= 1 -> entries b' k0 <= 1) /\
    forall kb, In kb b' ->
      In kb b \/
      (sphere (snd kb) = position (snd kb) /\
       In (bone_node (snd kb)) (preorder nd) /\
       ((is_End_Site (bone_node (snd kb)) = false /\
         fst kb = name (bone_node (snd kb)) /\
         bone_channels (snd kb) = channels (bone_node (snd kb)) /\
         channels (bone_node (snd kb)) <> []) \/
        (is_End_Site (bone_node (snd kb)) = true /\
         bone_channels (snd kb) = [] /\
         exists p, fst kb = endSiteName (name p) /\
                   ((parent = Some p /\ bone_node (snd kb) = nd) \/
                    (In p (preorder nd) /\
                     In (bone_node (snd kb)) (children p))))))).
  { intros b b' H. destruct (Hloop kids b b' IH H) as [H1 H2].
    split; [exact H1|]. intros kb Hin.
    destruct (H2 kb Hin) as [Hb|(Hs & Hn & Hc)]; [left; exact Hb|].
    right. split; [exact Hs|].
    split; [rewrite preorder_unfold; right; exact Hn|].
    destruct Hc as [Hj|(He & Hch & p & Hp & Hq)]; [left; exact Hj|].
    right. split; [exact He|]. split; [exact Hch|]. exists p.
    split; [exact Hp|]. right.
    destruct Hq as [[Hq1 Hq2]|[Hq1 Hq2]].
    - subst p. split; [rewrite preorder_unfold; left; reflexivity | exact Hq2].
    - split; [rewrite preorder_unfold; right; exact Hq1 | exact Hq2]. }
  destruct (is_End_Site nd) eqn:E.
  - rewrite andb_false_r. destruct parent as [p|]; simpl bind; [|discriminate].
    intros H. destruct (Hkids _ _ H) as [H1 H2].
    split; [intros k0 H0; apply H1, entries_set_le, H0|].
    intros kb Hin. destruct (H2 kb Hin) as [Hb|Hr]; [|right; exact Hr].
    apply In_Map_set in Hb as [Hb|[Hk Hv]]; [left; exact Hb|].
    right. rewrite Hv. cbn [sphere position bone_node bone_channels].
    split; [reflexivity|].
    split; [rewrite preorder_unfold; left; reflexivity|].
    right. split; [exact E|]. split; [reflexivity|].
    exists p. split; [exact Hk|]. left. split; reflexivity.
  - rewrite andb_true_r. destruct (0 <? List.length chs)%nat eqn:Ec;
      simpl bind; [|apply Hkids].
    intros H. destruct (Hkids _ _ H) as [H1 H2].
    split; [intros k0 H0; apply H1, entries_set_le, H0|].
    intros kb Hin. destruct (H2 kb Hin) as [Hb|Hr]; [|right; exact Hr].
    apply In_Map_set in Hb as [Hb|[Hk Hv]]; [left; exact Hb|].
    right. rewrite Hv. cbn [sphere position bone_node bone_channels].
    split; [reflexivity|].
    split; [rewrite preorder_unfold; left; reflexivity|].
    left. split; [exact E|]. split; [exact Hk|]. split; [reflexivity|].
    simpl. intros ->. simpl in Ec. discriminate.
Qed.

(** The table that [createSkeleton] builds, starting from the empty one:
    no identifier has two entries; every sphere stands at the rest
    position stored beside it; an entry holds a joint of the skeleton,
    and it is either a joint with channels, filed under its own name
    with its channels, or a joint of type [End Site], filed under
    [EndSite_<name of its parent>] with no channels. *)
Theorem bone_table_invariant
  (root : node) (pos : THREE.Vector3) (table : Map bone) :
  createBonesFromBVH root None pos [] = OK table ->
  (forall k, entries table k <= 1) /\
  forall k b, In (k, b) table ->
    sphere b = position b /\
    In (bone_node b) (preorder root) /\
    ((is_End_Site (bone_node b) = false /\ k = name (bone_node b) /\
      bone_channels b = channels (bone_node b) /\
      channels (bone_node b) <> []) \/
     (is_End_Site (bone_node b) = true /\ bone_channels b = [] /\
      exists p, In p (preorder root) /\ In (bone_node b) (children p) /\
                k = endSiteName (name p))).
Proof.
  intros H. destruct (createBones_adds root None pos [] table H) as [H1 H2].
  split; [intros k; apply H1; unfold entries; simpl; lia|].
  intros k b Hin. destruct (H2 (k, b) Hin) as [[]|(Hs & Hn & Hc)].
  simpl in *. split; [exact Hs|]. split; [exact Hn|].
  destruct Hc as [Hj|(He & Hch & p & Hp & Hq)]; [left; exact Hj|].
  right. split; [exact He|]. split; [exact Hch|]. exists p.
  destruct Hq as [[Hq _]|[Hq1 Hq2]]; [discriminate Hq|]. auto.
Qed.

(** The skeleton of the End Site example: [bent_root] and its End Site. *)
Lemma bone_table_invariant_witness :
  exists table,
    createBonesFromBVH bent_root None origin [] = OK table /\
    (forall k, entries table k <= 1) /\
    forall k b, In (k, b) table ->
      sphere b = position b /\
      In (bone_node b) (preorder bent_root) /\
      ((is_End_Site (bone_node b) = false /\ k = name (bone_node b) /\
        bone_channels b = channels (bone_node b) /\
        channels (bone_node b) <> []) \/
       (is_End_Site (bone_node b) = true /\ bone_channels b = [] /\
        exists p, In p (preorder bent_root) /\ In (bone_node b) (children p) /\
                  k = endSiteName (name p))).
Proof.
  eexists. split; [vm_compute; reflexivity|].
  apply (bone_table_invariant bent_root origin). vm_compute. reflexivity.
Defined.

(* ================================================================== *)
(** * Loading a file that parses *)









(* ================================================================== *)
(** * The lowest foot *)

Lemma lower_step (seen : list bone) (acc : lowest) (b : bone) :
  lowest_of seen acc -> lowest_of (seen ++ [b]) (lower acc b).
Proof.
  unfold lowest_of, lower. destruct acc as [p|].
  - intros (yp & Hp & (b0 & Hb0 & Hs0) & Hmin).
    destruct (nlt (THREE.y (sphere b)) (THREE.y p)) eqn:En.
    + unfold nlt in En. rewrite Hp in En.
      destruct (THREE.y (sphere b)) as [yb|] eqn:Eb; [|discriminate En].
      destruct (Rlt_dec yb yp) as [Hlt|]; [|discriminate En].
      exists yb. split; [first [exact Eb | reflexivity]|].
      split; [exists b; split; [apply in_or_app; right; left|]; reflexivity|].
      intros b' y' Hin Hy. apply in_app_or in Hin as [Hin|[<-|[]]].
      * specialize (Hmin b' y' Hin Hy). lra.
      * rewrite Eb in Hy. inversion Hy; subst. lra.
    + exists yp. split; [exact Hp|].
      split; [exists b0; split; [apply in_or_app; left|]; assumption|].
      intros b' y' Hin Hy. apply in_app_or in Hin as [Hin|[<-|[]]].
      * exact (Hmin b' y' Hin Hy).
      * unfold nlt in En. rewrite Hy, Hp in En.
        destruct (Rlt_dec y' yp); [discriminate En | lra].
  - intros Hnan. destruct (THREE.y (sphere b)) as [yb|] eqn:Eb.
    + exists yb. split; [first [exact Eb | reflexivity]|].
      split; [exists b; split; [apply in_or_app; right; left|]; reflexivity|].
      intros b' y' Hin Hy. apply in_app_or in Hin as [Hin|[<-|[]]].
      * rewrite (Hnan b' Hin) in Hy. discriminate Hy.
      * rewrite Eb in Hy. inversion Hy; subst. lra.
    + intros b' Hin. apply in_app_or in Hin as [Hin|[<-|[]]];
        [exact (Hnan b' Hin) | exact Eb].
Qed.

Lemma fold_lower (bs : list bone) :
  forall seen acc,
    lowest_of seen acc -> lowest_of (seen ++ bs) (fold_left lower bs acc).
Proof.
  induction bs as [|b bs IH]; intros seen acc H; simpl.
  - rewrite app_nil_r. exact H.
  - replace (seen ++ b :: bs) with ((seen ++ [b]) ++ bs)
      by (rewrite <- app_assoc; reflexivity).
    apply IH, lower_step, H.
Qed.

Lemma fold_lower_named (bones : Map bone) (names : list string) :
  forall acc,
    fold_left (lower_named bones) names acc
    = fold_left lower (named bones names) acc.
Proof.
  induction names as [|nm names IH]; intros acc; [reflexivity|].
  simpl. rewrite IH. unfold lower_named, named. simpl flat_map.
  destruct (Map_get bones (Some nm)); reflexivity.
Qed.

Lemma fold_lower_all (bones : Map bone) :
  forall acc,
    fold_left (fun a kv => lower a (snd kv)) bones acc
    = fold_left lower (map snd bones) acc.
Proof.
  induction bones as [|kb bones IH]; intros acc; [reflexivity|].
  simpl. apply IH.
Qed.

Lemma Map_get_In {V : Type} (m : Map V) (k : key) (v : V) :
  Map_get m k = Some v -> In (k, v) m.
Proof.
  induction m as [|[k0 v0] m IH]; simpl; [discriminate|].
  destruct (key_eqb k0 k) eqn:E.
  - apply key_eqb_eq in E. subst. intros H. inversion H; subst. left.
    reflexivity.
  - intros H. right. exact (IH H).
Qed.

Lemma named_In (bones : Map bone) (names : list string) (b : bone) :
  In b (named bones names) <->
  exists nm, In nm names /\ Map_get bones (Some nm) = Some b.
Proof.
  unfold named. rewrite in_flat_map. split.
  - intros (nm & Hnm & Hb). exists nm. split; [exact Hnm|].
    destruct (Map_get bones (Some nm)) as [b0|]; [|destruct Hb].
    destruct Hb as [<-|[]]. reflexivity.
  - intros (nm & Hnm & Hb). exists nm. split; [exact Hnm|].
    rewrite Hb. left. reflexivity.
Qed.

(** What the two searches of [findLowestFootPosition] compute. *)
Lemma findLowestFootPosition_spec (bones : Map bone) :
  let feet := named bones (footBoneNames ++ footEndSiteNames) in
  lowest_of feet (fold_left (lower_named bones) footEndSiteNames
                    (fold_left (lower_named bones) footBoneNames None)) /\
  lowest_of (map snd bones)
            (fold_left (fun a kv => lower a (snd kv)) bones None).
Proof.
  cbv zeta. split.
  - rewrite <- fold_left_app, fold_lower_named.
    apply (fold_lower _ [] None). intros b [].
  - rewrite fold_lower_all. apply (fold_lower _ [] None). intros b [].
Qed.


(** The position that [findLowestFootPosition] returns is the sphere of
    a bone of the table, at a height that is a number.  No bone found
    under one of the foot names stands below it; and when none of those
    has a height that is a number, no bone of the table stands below it. *)
Theorem lowest_foot_is_lowest (bones : Map bone) (p : THREE.Vector3) :
  findLowestFootPosition bones = Some p ->
  exists yp,
    THREE.y p = Fin yp /\
    (exists k b, In (k, b) bones /\ sphere b = p) /\
    (forall nm b y',
        In nm (footBoneNames ++ footEndSiteNames) ->
        Map_get bones (Some nm) = Some b ->
        THREE.y (sphere b) = Fin y' -> (yp <= y')%R) /\
    ((forall nm b,
         In nm (footBoneNames ++ footEndSiteNames) ->
         Map_get bones (Some nm) = Some b -> THREE.y (sphere b) = NaN) ->
     forall k b y',
       In (k, b) bones -> THREE.y (sphere b) = Fin y' -> (yp <= y')%R).
Proof.
  destruct (findLowestFootPosition_spec bones) as [Hf Ha]. cbv zeta in Hf.
  unfold findLowestFootPosition.
  destruct (fold_left (lower_named bones) footEndSiteNames
              (fold_left (lower_named bones) footBoneNames None)) as [q|].
  - intros H. inversion H; subst q; clear H.
    destruct Hf as (yp & Hp & (b & Hb & Hs) & Hmin).
    exists yp. split; [exact Hp|].
    apply named_In in Hb as (nm & Hnm & Hb).
    split; [exists (Some nm), b; split; [apply Map_get_In|]; assumption|].
    split.
    + intros nm' b' y' Hnm' Hb' Hy. apply (Hmin b' y'); [|exact Hy].
      apply named_In. exists nm'. auto.
    + intros Hnan. exfalso. rewrite <- Hs, (Hnan nm b Hnm Hb) in Hp.
      discriminate Hp.
  - destruct (fold_left (fun a kv => lower a (snd kv)) bones None) as [q|];
      [|discriminate].
    intros H. inversion H; subst q; clear H.
    destruct Ha as (yp & Hp & (b & Hb & Hs) & Hmin).
    exists yp. split; [exact Hp|].
    apply in_map_iff in Hb as ([k b'] & Hb' & Hin). simpl in Hb'. subst b'.
    split; [exists k, b; auto|].
    split.
    + intros nm' b' y' Hnm' Hb' Hy.
      rewrite (Hf b') in Hy; [discriminate Hy|].
      apply named_In. exists nm'. auto.
    + intros _ k' b' y' Hin' Hy. apply (Hmin b' y'); [|exact Hy].
      apply in_map_iff. exists (k', b'). auto.
Qed.

(** The toe at height 2 is found, not the tail at height 1, which has
    no foot name. *)
Lemma lowest_foot_is_lowest_witness :
  exists yp,
    THREE.y (sphere (standing 2)) = Fin yp /\
    (exists k b, In (k, b) standing_table /\ sphere b = sphere (standing 2)) /\
    (forall nm b y',
        In nm (footBoneNames ++ footEndSiteNames) ->
        Map_get standing_table (Some nm) = Some b ->
        THREE.y (sphere b) = Fin y' -> (yp <= y')%R) /\
    ((forall nm b,
         In nm (footBoneNames ++ footEndSiteNames) ->
         Map_get standing_table (Some nm) = Some b ->
         THREE.y (sphere b) = NaN) ->
     forall k b y',
       In (k, b) standing_table -> THREE.y (sphere b) = Fin y' ->
       (yp <= y')%R).
Proof.
  apply (lowest_foot_is_lowest standing_table). vm_compute. reflexivity.
Defined.

(* ================================================================== *)
(** * Playback *)











(** A frame time of 0, or a motion without frames, makes playback
    throw: as soon as an animation frame advances the current frame,
    the frame number is NaN, and [updateFrame] reads a channel value of
    a frame that does not exist.  (The parser accepts both.) *)
Theorem playback_throws_without_frame_time_or_frames
    (t : R) (p : player) (root : node) (md : MotionData) :
  isPlaying p = true ->
  skeleton (view p) = Some root -> channels root <> [] ->
  motionData (view p) = Some md ->
  frameTime md = Fin 0 \/ frameCount md = 0 ->
  nle (nmul (frameTime md) (Fin 1000))
      (nadd (frameAccumulator p)
            (nmul (nsub (Fin t)
                        (if is_zero (lastFrameTime p) then Fin t
                         else lastFrameTime p))
                  (playSpeed p))) = true ->
  animate (Fin t) p = Err TypeError.
Proof.
  intros Eplay Hr Hch Hm Hbad Hadv.
  unfold animate. rewrite Eplay, Hm. cbv zeta. rewrite Hadv.
  set (acc := nadd (frameAccumulator p) _) in *.
  assert (Hnan : imod (iadd (currentFrame p)
                         (floor (ndiv acc (nmul (frameTime md) (Fin 1000)))))
                      (frameCount md) = None).
  { destruct Hbad as [H0|H0].
    - rewrite H0. cbn [nmul]. unfold ndiv.
      destruct acc as [x|]; [|destruct (currentFrame p); reflexivity].
      destruct (Req_dec_T (0 * 1000) 0) as [_|Hne]; [|lra].
      destruct (currentFrame p); reflexivity.
    - rewrite H0. unfold imod. destruct (iadd _ _); reflexivity. }
  rewrite Hnan. unfold updateFrame. rewrite Hm. cbn [at_least frame_at].
  rewrite Hr. destruct root as [nm ty off chs kids]. simpl in Hch.
  rewrite updateBone_unfold. destruct chs as [|c chs]; [congruence|].
  reflexivity.
Qed.

Lemma playback_throws_without_frame_time_or_frames_witness :
  animate (Fin 16) (play (player_of stalled_viewer)) = Err TypeError.
Proof.
  apply (playback_throws_without_frame_time_or_frames 16
           (play (player_of stalled_viewer)) hip_node
           (mkMotionData 1 (Fin 0) [nine_zeros])).
  - reflexivity.
  - reflexivity.
  - discriminate.
  - reflexivity.
  - left. reflexivity.
  - cbn. unfold is_zero. destruct (Req_dec_T 0 0) as [_|H]; [|lra].
    cbn. destruct (Rle_dec (0 * 1000) (0 + (16 - 16) * 1)) as [_|H];
      [reflexivity | lra].
Defined.

(* ================================================================== *)
(** * The orbit camera *)

Lemma orbit_distance (rx ry r : R) :
  distance2 (cos ry * cos rx * r + 0, sin rx * r + 40,
             sin ry * cos rx * r + 0)%R center
  = (r * r)%R.
Proof.
  unfold distance2, center.
  pose proof (sin2_cos2 rx) as Hx. pose proof (sin2_cos2 ry) as Hy.
  unfold Rsqr in Hx, Hy.
  replace ((cos ry * cos rx * r + 0 - 0) * (cos ry * cos rx * r + 0 - 0)
           + (sin rx * r + 40 - 40) * (sin rx * r + 40 - 40)
           + (sin ry * cos rx * r + 0 - 0) * (sin ry * cos rx * r + 0 - 0))%R
    with (r * r * (sin rx * sin rx + cos rx * cos rx
                   - cos rx * cos rx
                     * (1 - (sin ry * sin ry + cos ry * cos ry))))%R by ring.
  rewrite Hx, Hy. ring.
Qed.

Lemma clamp_bounds (lo hi x : R) :
  (lo <= hi)%R -> (lo <= Rmax lo (Rmin hi x) <= hi)%R.
Proof.
  intros H. unfold Rmax, Rmin.
  destruct (Rle_dec hi x); destruct (Rle_dec lo _); lra.
Qed.

Lemma setupControls_in_orbit : in_orbit setupControls.
Proof.
  unfold in_orbit, setupControls, updateCameraPosition. simpl.
  pose proof PI2_1. repeat split; lra.
Qed.

Lemma on_mouse_in_orbit (e : mouse_event) (c : controls) :
  in_orbit c -> in_orbit (on_mouse e c).
Proof.
  intros (Hr & Hx & Hc). pose proof PI2_1 as Hpi.
  destruct e as [x y|x y| |d]; unfold on_mouse.
  - unfold in_orbit. simpl. auto.
  - destruct (negb (isMouseDown c)); [unfold in_orbit; auto|].
    cbv zeta. unfold in_orbit, updateCameraPosition. simpl.
    split; [exact Hr|]. split; [|reflexivity].
    apply clamp_bounds. lra.
  - unfold in_orbit. simpl. auto.
  - cbv zeta. unfold in_orbit, updateCameraPosition. simpl.
    split; [apply clamp_bounds; lra|]. split; [exact Hx | reflexivity].
Qed.

Lemma after_mouse_in_orbit (es : list mouse_event) : in_orbit (after_mouse es).
Proof.
  unfold after_mouse.
  assert (H : forall c, in_orbit c ->
                        in_orbit (fold_left (fun c e => on_mouse e c) es c)).
  { induction es as [|e es IH]; intros c Hc; [exact Hc|].
    simpl. apply IH, on_mouse_in_orbit, Hc. }
  apply H, setupControls_in_orbit.
Qed.

(** Whatever the mouse does, the camera stays on a sphere about the
    centre (0, 40, 0) whose radius is the zoom distance, between 50 and
    500; its elevation stays within nine tenths of a right angle, so
    that it never reaches the vertical through the centre. *)
Theorem camera_stays_in_orbit (es : list mouse_event) :
  (50 <= radius (after_mouse es) <= 500)%R /\
  (- PI / 2 * (9 / 10) <= rotationX (after_mouse es) <= PI / 2 * (9 / 10))%R /\
  distance2 (camera_position (after_mouse es)) center
  = (radius (after_mouse es) * radius (after_mouse es))%R /\
  (0 < cos (rotationX (after_mouse es)))%R.
Proof.
  destruct (after_mouse_in_orbit es) as (Hr & Hx & Hc).
  pose proof PI_RGT_0 as Hpi.
  split; [exact Hr|]. split; [exact Hx|].
  split; [rewrite Hc; apply orbit_distance|].
  apply cos_gt_0; lra.
Qed.

(* ================================================================== *)
(** * The skeleton moves rigidly *)























(* ================================================================== *)
(** * The rest pose *)








(* ================================================================== *)
(** * The scale that the height heuristic sets *)





(* ================================================================== *)
(** * From the file to playback *)




(* ================================================================== *)
(** * Line endings *)

Lemma split_newline_nonempty (s : string) : split_newline s <> [].
Proof.
  destruct s as [|c r]; simpl; [discriminate|].
  destruct (Ascii.eqb c "010"); [discriminate|].
  destruct (split_newline r); discriminate.
Qed.

Lemma split_newline_crlf (s : string) :
  split_newline (to_crlf s) = cr_lines (split_newline s).
Proof.
  induction s as [|c r IH]; [reflexivity|].
  simpl to_crlf. simpl split_newline at 2.
  destruct (Ascii.eqb c "010") eqn:E.
  - change (split_newline (String "013" (String "010" (to_crlf r))))
      with (match split_newline (String "010" (to_crlf r)) with
            | h :: t => String "013" h :: t
            | [] => [String "013" EmptyString]
            end).
    change (split_newline (String "010" (to_crlf r)))
      with (EmptyString :: split_newline (to_crlf r)).
    rewrite IH. pose proof (split_newline_nonempty r) as Hne.
    destruct (split_newline r) as [|h t]; [congruence|]. reflexivity.
  - simpl split_newline. rewrite E, IH.
    pose proof (split_newline_nonempty r) as Hne.
    destruct (split_newline r) as [|h [|h' t]]; [congruence| |]; reflexivity.
Qed.

Lemma trimEnd_cr (s : string) :
  trimEnd (s ++ String "013" EmptyString) = trimEnd s.
Proof.
  induction s as [|c s IH]; [reflexivity|].
  simpl. rewrite IH. reflexivity.
Qed.

Lemma trimStart_cr (s : string) :
  trimStart (s ++ String "013" EmptyString)
  = match trimStart s with
    | EmptyString => EmptyString
    | t => (t ++ String "013" EmptyString)%string
    end.
Proof.
  induction s as [|c s IH]; [reflexivity|].
  simpl. destruct (is_space c); [exact IH | reflexivity].
Qed.

Lemma trim_cr (s : string) : trim (s ++ String "013" EmptyString) = trim s.
Proof.
  unfold trim. rewrite trimStart_cr.
  destruct (trimStart s) as [|c t]; [reflexivity|]. apply trimEnd_cr.
Qed.

Lemma map_trim_cr_lines (ls : list string) :
  map trim (cr_lines ls) = map trim ls.
Proof.
  induction ls as [|l [|l' rest] IH]; [reflexivity | reflexivity|].
  change (cr_lines (l :: l' :: rest))
    with ((l ++ String "013" EmptyString)%string :: cr_lines (l' :: rest)).
  rewrite map_cons, trim_cr, IH. reflexivity.
Qed.

(** Line endings do not matter: a text saved with CR LF line endings
    gives the same lines, and so the same result of [parse], as the
    text with LF line endings. *)
Theorem line_endings_do_not_matter (content : string) :
  content_lines (to_crlf content) = content_lines content /\
  parse (to_crlf content) = parse content.
Proof.
  assert (H : content_lines (to_crlf content) = content_lines content).
  { unfold content_lines.
    rewrite split_newline_crlf, map_trim_cr_lines. reflexivity. }
  split; [exact H|]. unfold parse. rewrite H. reflexivity.
Qed.

(* ================================================================== *)
(** * The lines between bones *)

Lemma Map_get_fixed (a b : Map bone) (k : key) :
  map fixed_part a = map fixed_part b ->
  match Map_get a k, Map_get b k with
  | Some _, Some _ => True
  | None, None => True
  | _, _ => False
  end.
Proof.
  revert b. induction a as [|[k1 b1] a IH]; intros [|[k2 b2] b] H;
    try discriminate H; [exact I|].
  simpl in H. injection H as Hk _ _ _ Ht. subst. simpl.
  destruct (key_eqb k2 k); [exact I | apply IH, Ht].
Qed.

(** Moving the ends of the lines to the spheres of a table with the same
    keys gives the lines that would be drawn for that table. *)
Lemma updateSkeletonLines_create (connections : list connection)
    (bones bones' : Map bone) :
  map fixed_part bones' = map fixed_part bones ->
  updateSkeletonLines (createSkeletonLines connections bones) bones'
  = createSkeletonLines connections bones'.
Proof.
  intros H. unfold updateSkeletonLines, createSkeletonLines.
  induction connections as [|c cs IH]; [reflexivity|].
  simpl flat_map. rewrite map_app, IH. f_equal.
  pose proof (Map_get_fixed bones' bones (c_parent c) H) as Hp.
  pose proof (Map_get_fixed bones' bones (c_child c) H) as Hc.
  destruct (Map_get bones (c_parent c)) as [pb|];
    destruct (Map_get bones' (c_parent c)) as [pb'|] eqn:Ep;
    try contradiction;
    destruct (Map_get bones (c_child c)) as [cb|];
    destruct (Map_get bones' (c_child c)) as [cb'|] eqn:Ec;
    try contradiction; try reflexivity.
  simpl. rewrite Ep, Ec. reflexivity.
Qed.

(** After a frame evaluation the lines join the spheres where they now
    stand: moving the ends of the lines drawn before the frame gives the
    lines that would be drawn afresh from the table after it. *)
Theorem lines_follow_the_spheres (frameIndex : jsint) (v v' : viewer)
    (connections : list connection) :
  updateFrame frameIndex v = OK v' ->
  updateSkeletonLines (createSkeletonLines connections (bones v)) (bones v')
  = createSkeletonLines connections (bones v').
Proof.
  intros H. apply updateSkeletonLines_create.
  apply (updateFrame_keeps frameIndex v v' H).
Qed.

Lemma lines_follow_the_spheres_witness :
  updateSkeletonLines
    (createSkeletonLines (boneConnections hip_node None)
                         (bones scenario_viewer))
    (bones scenario_posed)
  = createSkeletonLines (boneConnections hip_node None) (bones scenario_posed).
Proof.
  apply (lines_follow_the_spheres (Some 0%Z) scenario_viewer scenario_posed).
  exact scenario_pose.
Defined.




(* ================================================================== *)
(** * The lowest bone of all *)

(** [findAbsoluteLowestPosition] returns the sphere of a bone of the
    table at a height that is a number and that no bone of the table is
    below; it is never above what [findLowestFootPosition] returns, and
    the two agree when no bone with a foot name has a height that is a
    number. *)
Theorem absolute_lowest_is_lowest (bones : Map bone) (q : THREE.Vector3) :
  findAbsoluteLowestPosition bones = Some q ->
  exists yq,
    THREE.y q = Fin yq /\
    (exists k b, In (k, b) bones /\ sphere b = q) /\
    (forall k b y', In (k, b) bones -> THREE.y (sphere b) = Fin y' ->
                    (yq <= y')%R) /\
    (exists p yp, findLowestFootPosition bones = Some p /\
                  THREE.y p = Fin yp /\ (yq <= yp)%R) /\
    ((forall nm b,
         In nm (footBoneNames ++ footEndSiteNames) ->
         Map_get bones (Some nm) = Some b -> THREE.y (sphere b) = NaN) ->
     findLowestFootPosition bones = Some q).
Proof.
  destruct (findLowestFootPosition_spec bones) as [Hf Ha]. cbv zeta in Hf.
  unfold findAbsoluteLowestPosition, findLowestFootPosition.
  destruct (fold_left (fun a kv => lower a (snd kv)) bones None) as [q'|];
    [|discriminate].
  intros H. inversion H; subst q'; clear H.
  destruct Ha as (yq & Hq & (b & Hb & Hs) & Hmin).
  exists yq. split; [exact Hq|].
  apply in_map_iff in Hb as ([k b'] & Hb' & Hin). simpl in Hb'. subst b'.
  split; [exists k, b; auto|].
  assert (Hall : forall k0 b0 y', In (k0, b0) bones ->
                                  THREE.y (sphere b0) = Fin y' -> (yq <= y')%R).
  { intros k0 b0 y' Hin0 Hy. apply (Hmin b0 y'); [|exact Hy].
    apply in_map_iff. exists (k0, b0). auto. }
  split; [exact Hall|].
  destruct (fold_left (lower_named bones) footEndSiteNames
              (fold_left (lower_named bones) footBoneNames None)) as [p|].
  - destruct Hf as (yp & Hp & (bf & Hbf & Hsf) & _).
    apply named_In in Hbf as (nm & Hnm & Hbf).
    split.
    + exists p, yp. split; [reflexivity|]. split; [exact Hp|].
      apply (Hall (Some nm) bf yp); [apply Map_get_In, Hbf|].
      rewrite Hsf. exact Hp.
    + intros Hnan. exfalso. rewrite <- Hsf, (Hnan nm bf Hnm Hbf) in Hp.
      discriminate Hp.
  - split; [|reflexivity].
    exists q, yq. split; [reflexivity|]. split; [exact Hq | lra].
Qed.

Lemma absolute_lowest_is_lowest_witness :
  exists yq,
    THREE.y (sphere (standing 1)) = Fin yq /\
    (exists k b, In (k, b) standing_table /\ sphere b = sphere (standing 1)) /\
    (forall k b y', In (k, b) standing_table ->
                    THREE.y (sphere b) = Fin y' -> (yq <= y')%R) /\
    (exists p yp, findLowestFootPosition standing_table = Some p /\
                  THREE.y p = Fin yp /\ (yq <= yp)%R) /\
    ((forall nm b,
         In nm (footBoneNames ++ footEndSiteNames) ->
         Map_get standing_table (Some nm) = Some b ->
         THREE.y (sphere b) = NaN) ->
     findLowestFootPosition standing_table = Some (sphere (standing 1))).
Proof.
  apply (absolute_lowest_is_lowest standing_table).
  rcbv.
  destruct (Rlt_dec 2 90) as [_|H]; [|lra].
  destruct (Rlt_dec 170 2) as [H|_]; [lra|].
  destruct (Rlt_dec 1 2) as [_|H]; [|lra].
  reflexivity.
Defined.

(* ================================================================== *)
(** * Reading a hierarchy of the documented form *)

(** A hierarchy laid out as the format documents it is read as it is
    written: each joint gets the second token of its declaration line
    for a name and the first for a type, the three numbers of its OFFSET
    line, the channel names of its CHANNELS line in their order, and its
    children in their order; an End Site block becomes a childless joint
    named [Site] of type [End].  The total is the number of channels of
    the whole tree, and the index returned is that of the line after the
    block. *)
Theorem documented_hierarchy_is_read_as_written
    (t : hier) (rest : list string) :
  valid_root t = true ->
  parseHierarchy ("HIERARCHY" :: render t ++ rest) 1
  = OK (mkHierarchy (expected true t)
          (Some (Z.of_nat (channel_sum all_joints (expected true t))))
          (1 + List.length (render t))).
Proof.
  intros Hv. apply (parseHierarchy_valid _ rest t Hv). reflexivity.
Qed.

Lemma documented_hierarchy_is_read_as_written_witness :
  parseHierarchy ("HIERARCHY" :: render scenario_hier ++ scenario_motion_lines) 1
  = OK (mkHierarchy (expected true scenario_hier)
          (Some (Z.of_nat (channel_sum all_joints (expected true scenario_hier))))
          (1 + List.length (render scenario_hier))).
Proof.
  apply (documented_hierarchy_is_read_as_written scenario_hier).
  vm_compute. reflexivity.
Defined.

(* ================================================================== *)
(** * Frames that exist *)



(* ================================================================== *)
(** * The values of a frame that are read *)





